(** * fast_boot_core.schemas: sort criteria, page requests and temporal coercion

    A shallow embedding of [fast_boot_core/schemas.py].  Python values are
    modelled by inductive types, exceptions by an error monad, and the calls
    into the standard library whose outcome depends on the host (string to
    float conversion, local time) by a record of functions.  What depends
    on the interpreter's version (how an f-string renders a member of the
    enumeration, the limit on the digits of an int) is a parameter too. *)

From Stdlib Require Import ZArith List String Ascii Bool Lia DecimalString SpecFloat.
From Stdlib Require Import DecimalPos DecimalZ.
Import ListNotations.
Local Open Scope string_scope.

(** ** Python values, exceptions and builtins *)

Module Py.

(** The exception classes the module can raise.  [ValidationError] is
    pydantic's, a subclass of [ValueError]. *)
Inductive exn := ValueError | TypeError | OverflowError | KeyError | ValidationError.

Inductive result (A : Type) :=
| Return (a : A)
| Raise (e : exn).
Arguments Return {A} a.
Arguments Raise {A} e.

Definition bind {A B : Type} (c : result A) (k : A -> result B) : result B :=
  match c with
  | Return a => k a
  | Raise e => Raise e
  end.

(** [isinstance(e, ValueError)] *)
Definition is_ValueError (e : exn) : bool :=
  match e with
  | ValueError | ValidationError => true
  | _ => false
  end.

(** Position of the first occurrence of a character. *)
Fixpoint find (c : ascii) (s : string) : option nat :=
  match s with
  | EmptyString => None
  | String a s' => if Ascii.eqb a c then Some 0 else option_map S (find c s')
  end.

(** [s.index(c)]: raises [ValueError] when [c] does not occur. *)
Definition index (s : string) (c : ascii) : result nat :=
  match find c s with
  | Some i => Return i
  | None => Raise ValueError
  end.

(** [s[a:b]] for non-negative [a] and [b]; empty when [b <= a]. *)
Definition slice (s : string) (a b : nat) : string := substring a (b - a) s.

(** [s[:-1]] *)
Definition drop_last (s : string) : string := substring 0 (length s - 1) s.

(** The decimal text of an int. *)
Definition str_of_int (z : Z) : string := NilZero.string_of_int (Z.to_int z).

End Py.
Import Py.

Notation "x <- c ;; k" := (bind c (fun x => k))
  (at level 61, c at next level, right associativity).

(** ** What depends on the interpreter *)

Module Interp.

(** How [format] and f-strings render a member of an enumeration that mixes
    in [str]: by its value (CPython up to 3.10), or as [str(member)] does,
    by the names of the class and of the member (CPython 3.11 and
    later). *)
Inductive enum_format := ByValue | ByName.

(** [int_max_str_digits] is the limit on the digits of an int turned into
    text, 0 when there is none. *)
Record t := { enum_format_of : enum_format; int_max_str_digits : nat }.

(** The limit is looked at for texts longer than this only. *)
Definition digits_threshold : nat := 640.

(** [str(n)] and the f-string rendering of an int: its decimal text, or
    [ValueError] when the text is longer than the threshold and the int has
    more digits than the limit. *)
Definition format_int (i : t) (z : Z) : result string :=
  let s := str_of_int z in
  let digits := if (z <? 0)%Z then length s - 1 else length s in
  if Nat.ltb 0 (int_max_str_digits i) && Nat.ltb digits_threshold (length s)
     && Nat.ltb (int_max_str_digits i) digits
  then Raise ValueError
  else Return s.

(** CPython 3.10 and 3.11 with their default limit. *)
Definition cpython_3_10 : t := {| enum_format_of := ByValue; int_max_str_digits := 4300 |}.
Definition cpython_3_11 : t := {| enum_format_of := ByName; int_max_str_digits := 4300 |}.

End Interp.

(** ** class Sort *)

Module Sort.

Inductive Direction := ASC | DESC.

(** The member's [.value]. *)
Definition value (d : Direction) : string :=
  match d with
  | ASC => "asc"
  | DESC => "desc"
  end.

(** The member's [.name]. *)
Definition name (d : Direction) : string :=
  match d with
  | ASC => "ASC"
  | DESC => "DESC"
  end.

(** What an f-string renders for a member: the value, or the class name, a
    dot and the member's name, as the interpreter has it. *)
Definition format_member (i : Interp.t) (d : Direction) : string :=
  match Interp.enum_format_of i with
  | Interp.ByValue => value d
  | Interp.ByName => "Direction." ++ name d
  end.

Definition members : list Direction := [ASC; DESC].

(** [Direction(text)]: the member whose value is [text]. *)
Definition Direction_of (text : string) : option Direction :=
  List.find (fun d => String.eqb (value d) text) members.

(** Both fields default to [None]. *)
Record t := { order_by : option string; direction : option Direction }.

(** [cls(order_by=..., direction=...)] on two strings: pydantic keeps the
    first and turns the second into a member of [Direction]. *)
Definition init (order_by direction : string) : result t :=
  match Direction_of direction with
  | Some d => Return {| order_by := Some order_by; direction := Some d |}
  | None => Raise ValidationError
  end.

(** [order_by = s[:s.index("(")]],
    [direction = s[s.index("(") + 1 : s.index(")")]] *)
Definition from_str (sort_criteria : string) : result t :=
  i <- index sort_criteria "(" ;;
  let order_by := slice sort_criteria 0 i in
  i' <- index sort_criteria "(" ;;
  j <- index sort_criteria ")" ;;
  let direction := slice sort_criteria (i' + 1) j in
  init order_by direction.

Definition format_str (o : option string) : string :=
  match o with
  | Some s => s
  | None => "None"
  end.

Definition format_direction (i : Interp.t) (o : option Direction) : string :=
  match o with
  | Some d => format_member i d
  | None => "None"
  end.

(** The f-string [{self.order_by}({self.direction})] *)
Definition to_str (i : Interp.t) (self : t) : string :=
  format_str (order_by self) ++ "(" ++ format_direction i (direction self) ++ ")".

(** The pattern text, with the members' values joined by [|] in the place
    of the braces. *)
Definition query_regex : string :=
  "^.+\((?:" ++ String.concat "|" (map value members) ++ ")\)$".

End Sort.

(** ** class Pageable *)

Module Pageable.

Record t := { sort : list Sort.t; size : Z; page : Z }.

(** [Field(default, gt=bound)] of an integer field. *)
Record FieldInfo := { default : Z; gt : option Z }.

Definition size_field : FieldInfo := {| default := 100; gt := Some 0%Z |}.
Definition page_field : FieldInfo := {| default := 1; gt := Some 0%Z |}.

(** pydantic's check of a supplied integer against the field's bound. *)
Definition validate (f : FieldInfo) (v : Z) : result Z :=
  match gt f with
  | Some b => if (b <? v)%Z then Return v else Raise ValidationError
  | None => Return v
  end.

(** A keyword that is given is validated; an absent one takes the field's
    default, which is not validated. *)
Definition field_value (f : FieldInfo) (kw : option Z) : result Z :=
  match kw with
  | Some v => validate f v
  | None => Return (default f)
  end.

(** [BaseModel.__init__] with keyword arguments, for this model. *)
Definition BaseModel_init (kw_sort : option (list Sort.t)) (kw_size kw_page : option Z)
  : result t :=
  let sort := match kw_sort with Some l => l | None => [] end in
  size <- field_value size_field kw_size ;;
  page <- field_value page_field kw_page ;;
  Return {| sort := sort; size := size; page := page |}.

(** [Config.validate_assignment]: the class declares no [Config], so
    pydantic's default holds. *)
Definition validate_assignment : bool := false.

(** [BaseModel.__setattr__] on an integer field: the value is stored as it
    is given unless the class validates assignments. *)
Definition assign (f : FieldInfo) (v : Z) : result Z :=
  if validate_assignment then validate f v else Return v.

(** [self.sort = v], [self.size = v], [self.page = v] *)
Definition set_sort (self : t) (v : list Sort.t) : result t :=
  Return {| sort := v; size := size self; page := page self |}.

Definition set_size (self : t) (v : Z) : result t :=
  v' <- assign size_field v ;;
  Return {| sort := sort self; size := v'; page := page self |}.

Definition set_page (self : t) (v : Z) : result t :=
  v' <- assign page_field v ;;
  Return {| sort := sort self; size := size self; page := v' |}.

(** [Pageable.__init__(self, size, page, sort)]: the model is first built
    by [super().__init__()], with no argument, then the three attributes
    are assigned. *)
Definition init (size page : Z) (sort : list Sort.t) : result t :=
  self <- BaseModel_init None None None ;;
  self <- set_sort self sort ;;
  self <- set_size self size ;;
  set_page self page.

(** [list(map(f, l))] for an [f] that can raise. *)
Fixpoint map_result {A B : Type} (f : A -> result B) (l : list A) : result (list B) :=
  match l with
  | [] => Return []
  | x :: l' =>
      y <- f x ;;
      ys <- map_result f l' ;;
      Return (y :: ys)
  end.

(** The factories, on arguments that are given.  The [Query] declarations
    of their parameters are FastAPI's, applied at the request boundary
    before the call. *)
Definition non_sort (page size : Z) : result t := init size page [].

Definition standard (page size : Z) (sort : list string) : result t :=
  sorts <- map_result Sort.from_str sort ;;
  init size page sorts.

Definition old_standard (page limit : Z) (sort : list string) : result t :=
  sorts <- map_result Sort.from_str sort ;;
  init limit page sorts.

(** Values held by the dictionaries of [self.dict()]. *)
Inductive atom :=
| ANone
| AInt (z : Z)
| AStr (s : string)
| ADirection (d : Sort.Direction).

Inductive entry :=
| EAtom (a : atom)
| EList (l : list (list (string * atom))).

(** [Sort.dict()] *)
Definition Sort_dict (s : Sort.t) : list (string * atom) :=
  [ ("order_by", match Sort.order_by s with Some x => AStr x | None => ANone end);
    ("direction", match Sort.direction s with Some d => ADirection d | None => ANone end) ].

(** [self.dict()]: the fields in the order the class declares them. *)
Definition dict (self : t) : list (string * entry) :=
  [ ("sort", EList (map Sort_dict (sort self)));
    ("size", EAtom (AInt (size self)));
    ("page", EAtom (AInt (page self))) ].

(** What an f-string renders for a value. *)
Definition format (i : Interp.t) (a : atom) : result string :=
  match a with
  | ANone => Return "None"
  | AInt z => Interp.format_int i z
  | AStr s => Return s
  | ADirection d => Return (Sort.format_member i d)
  end.

(** [v[key]] *)
Fixpoint getitem (v : list (string * atom)) (key : string) : result atom :=
  match v with
  | [] => Raise KeyError
  | (k, a) :: v' => if String.eqb k key then Return a else getitem v' key
  end.

(** The comprehension over a list value, joined. *)
Fixpoint render_list (i : Interp.t) (key : string) (value : list (list (string * atom)))
  : result string :=
  match value with
  | [] => Return ""
  | v :: value' =>
      o <- getitem v "order_by" ;;
      o <- format i o ;;
      d <- getitem v "direction" ;;
      d <- format i d ;;
      rest <- render_list i key value' ;;
      Return (key ++ "=" ++ o ++ "(" ++ d ++ ")&" ++ rest)
  end.

(** The loop over [self.dict().items()], threading the text built so far:
    a list value adds one segment per element, any other value one
    [key=value&]. *)
Fixpoint render_items (i : Interp.t) (items : list (string * entry)) (acc : string)
  : result string :=
  match items with
  | [] => Return acc
  | (key, EList l) :: items' =>
      seg <- render_list i key l ;;
      render_items i items' (acc ++ seg)
  | (key, EAtom a) :: items' =>
      value <- format i a ;;
      render_items i items' (acc ++ key ++ "=" ++ value ++ "&")
  end.

(** The text built by the loop, without its last character. *)
Definition to_api_query (i : Interp.t) (self : t) : result string :=
  acc <- render_items i (dict self) "" ;;
  Return (drop_last acc).

Definition to_api_mapping_query (self : t) : list (string * entry) := dict self.

End Pageable.

(** ** Regular expressions: the part of Python's [re] the sort pattern uses *)

Module Re.

Inductive regex :=
| Bol
| Eol
| Dot
| Chr (c : ascii)
| Eps
| Seq (a b : regex)
| Alt (a b : regex)
| Plus (a : regex).

(** Characters with a meaning of their own in a pattern. *)
Definition special (c : ascii) : bool :=
  match find c "\.^$*+?{}[]|()" with
  | Some _ => true
  | None => false
  end.

(** Recursive descent over the pattern: alternatives, sequences, pieces with
    a postfix [+], atoms.  Syntax outside this fragment is refused. *)
Fixpoint parse_alt (fuel : nat) (p : string) : option (regex * string) :=
  match fuel with
  | O => None
  | S f =>
      match parse_seq f p with
      | Some (a, String "|" p') =>
          match parse_alt f p' with
          | Some (b, p'') => Some (Alt a b, p'')
          | None => None
          end
      | r => r
      end
  end
with parse_seq (fuel : nat) (p : string) : option (regex * string) :=
  match fuel with
  | O => None
  | S f =>
      match p with
      | "" | String "|" _ | String ")" _ => Some (Eps, p)
      | _ =>
          match parse_piece f p with
          | Some (a, p') =>
              match parse_seq f p' with
              | Some (b, p'') => Some (Seq a b, p'')
              | None => None
              end
          | None => None
          end
      end
  end
with parse_piece (fuel : nat) (p : string) : option (regex * string) :=
  match fuel with
  | O => None
  | S f =>
      match parse_atom f p with
      | Some (a, String "+" p') => Some (Plus a, p')
      | r => r
      end
  end
with parse_atom (fuel : nat) (p : string) : option (regex * string) :=
  match fuel with
  | O => None
  | S f =>
      match p with
      | String "^" p' => Some (Bol, p')
      | String "$" p' => Some (Eol, p')
      | String "." p' => Some (Dot, p')
      | String "\" (String c p') => if special c then Some (Chr c, p') else None
      | String "(" (String "?" (String ":" p')) =>
          match parse_alt f p' with
          | Some (r, String ")" p'') => Some (r, p'')
          | _ => None
          end
      | String c p' => if special c then None else Some (Chr c, p')
      | "" => None
      end
  end.

(** [re.compile(pattern)]; [None] when the pattern is outside the fragment. *)
Definition compile (pattern : string) : option regex :=
  match parse_alt (4 * length pattern + 4) pattern with
  | Some (r, "") => Some r
  | _ => None
  end.

Definition newline : ascii := "010"%char.

(** A matching position: whether it is the start of the text, and the text
    that is left. *)
Definition state : Type := bool * string.

(** One or more rounds of [f]; every round that matters consumes a
    character, so the length of the text bounds the rounds. *)
Fixpoint plus_run (f : state -> list state) (fuel : nat) (st : state) : list state :=
  match fuel with
  | O => []
  | S n => let next := f st in next ++ flat_map (plus_run f n) next
  end.

(** The positions where a match of [r] that starts at [st] can end.  As in
    Python without flags, [.] matches any character but a newline, [^]
    matches at the start of the text, and [$] at its end or just before a
    newline that ends it. *)
Fixpoint run (r : regex) (st : state) : list state :=
  match r with
  | Bol => if fst st then [st] else []
  | Eol =>
      match snd st with
      | "" => [st]
      | String c "" => if Ascii.eqb c newline then [st] else []
      | _ => []
      end
  | Dot =>
      match snd st with
      | String c s' => if Ascii.eqb c newline then [] else [(false, s')]
      | "" => []
      end
  | Chr c =>
      match snd st with
      | String c' s' => if Ascii.eqb c' c then [(false, s')] else []
      | "" => []
      end
  | Eps => [st]
  | Seq a b => flat_map (run b) (run a st)
  | Alt a b => run a st ++ run b st
  | Plus a => plus_run (run a) (length (snd st)) st
  end.

(** The pattern of a literal word. *)
Fixpoint lit (w : string) : regex :=
  match w with
  | "" => Eps
  | String c w' => Seq (Chr c) (lit w')
  end.

(** [re.match(pattern, text) is not None] *)
Definition matches (pattern text : string) : option bool :=
  match compile pattern with
  | Some r => Some (match run r (true, text) with [] => false | _ => true end)
  | None => None
  end.

End Re.

(** ** The request boundary of the factories

    The parameters of [Pageable.standard] are declared
    [page = Query(1, ge=1)], [size = Query(100, ge=1)] and
    [sort = Query([token], regex=Sort.query_regex())], where [token] is the
    f-string "id({Sort.Direction.DESC})".  FastAPI reads such a declaration
    as follows.  An integer parameter that is absent takes its default,
    unchecked, and one that is given is checked against the bound.  For a
    repeated text parameter the values received, or the default list when
    none is received, are checked against the pattern item by item.  The
    function is called only when every check passes. *)

Module Boundary.

Local Open Scope Z_scope.

(** [Query(default, ge=bound)] on an integer parameter. *)
Definition query_int (default bound : Z) (given : option Z) : result Z :=
  match given with
  | None => Return default
  | Some v => if bound <=? v then Return v else Raise ValidationError
  end.

(** [pattern] matches the text. *)
Definition accepts (pattern text : string) : bool :=
  match Re.matches pattern text with
  | Some true => true
  | _ => false
  end.

(** [Query(default, regex=pattern)] on a repeated text parameter;
    [received] holds the values of the request, none when the parameter is
    absent. *)
Definition query_texts (default : list string) (pattern : string)
  (received : list string) : result (list string) :=
  let value := match received with [] => default | _ => received end in
  if forallb (accepts pattern) value then Return value else Raise ValidationError.

(** [Pageable.standard] as a request reaches it. *)
Definition standard (i : Interp.t) (page size : option Z) (sort : list string)
  : result Pageable.t :=
  page <- query_int 1 1 page ;;
  size <- query_int 100 1 size ;;
  sort <- query_texts ["id(" ++ Sort.format_member i Sort.DESC ++ ")"] Sort.query_regex sort ;;
  Pageable.standard page size sort.

End Boundary.

(** ** Floats, dates and the host's conversions *)

Module Host.

Local Open Scope Z_scope.

(** A Python float: an IEEE 754 binary64 number. *)
Definition float : Type := spec_float.
Definition prec : Z := 53.
Definition emax : Z := 1024.

(** The float nearest to an integer, ties to even; an infinity when the
    integer is beyond the largest float. *)
Definition float_of_Z (z : Z) : float := binary_normalize prec emax z 0 false.

(** [datetime.datetime]; [tzinfo] is [None] for an offset-naive value and
    otherwise holds the zone's offset from UTC in seconds. *)
Record datetime := {
  year : Z; month : Z; day : Z;
  hour : Z; minute : Z; second : Z; microsecond : Z;
  tzinfo : option Z
}.

(** [datetime.date] *)
Record date := { date_year : Z; date_month : Z; date_day : Z }.

(** [d.replace(tzinfo=tz)] *)
Definition replace_tzinfo (d : datetime) (tz : option Z) : datetime :=
  {| year := year d; month := month d; day := day d;
     hour := hour d; minute := minute d; second := second d;
     microsecond := microsecond d; tzinfo := tz |}.

(** The raw values a field can receive; [VObject] is an instance of any
    other class, one that defines no conversion to float (a list, a
    dict). *)
Inductive value :=
| VNone
| VBool (b : bool)
| VInt (z : Z)
| VFloat (f : float)
| VStr (s : string)
| VDatetime (d : datetime)
| VDate (d : date)
| VObject (class : string).

(** The conversions whose result depends on the interpreter and on the
    host's time zone.  [None] stands for a raised exception: [ValueError]
    for [float_of_str], any [Exception] for the others, which the code
    calls under [except Exception]. *)
Record runtime := {
  float_of_str : string -> option float;          (* float(s) *)
  fromtimestamp : float -> option datetime;       (* datetime.fromtimestamp(f) *)
  fromisoformat : string -> option datetime;      (* datetime.fromisoformat(s) *)
  strptime : string -> string -> option datetime; (* datetime.strptime(s, fmt) *)
  timestamp : datetime -> option float            (* d.timestamp() *)
}.

End Host.
Import Host.

(** ** class Schema: the validator run before every field *)

Module Schema.

(** [val.type_], as far as the validator looks at it. *)
Inductive field_type := Tdatetime | Tdate | Tother.

Section Validator.

Variable rt : runtime.

(** [float(v)] *)
Definition float_ (v : value) : result float :=
  match v with
  | VNone => Raise TypeError
  | VBool b => Return (float_of_Z (if b then 1 else 0))
  | VInt z =>
      match float_of_Z z with
      | S754_infinity _ => Raise OverflowError
      | f => Return f
      end
  | VFloat f => Return f
  | VStr s =>
      match float_of_str rt s with
      | Some f => Return f
      | None => Raise ValueError
      end
  | VDatetime _ | VDate _ | VObject _ => Raise TypeError
  end.

(** The probe
    [try: bool(float(v)); is_numeric = True
     except ValueError: is_numeric = False];
    any other exception leaves the validator. *)
Definition probe (v : value) : result bool :=
  match float_ v with
  | Return _ => Return true
  | Raise e => if is_ValueError e then Return false else Raise e
  end.

(** [type(v) in {int, float}] *)
Definition type_in_int_float (v : value) : bool :=
  match v with
  | VInt _ | VFloat _ => true
  | _ => false
  end.

(** [try: return datetime.fromtimestamp(float(v))
     except Exception: raise ValueError] *)
Definition from_number (v : value) : result value :=
  match float_ v with
  | Return f =>
      match fromtimestamp rt f with
      | Some d => Return (VDatetime d)
      | None => Raise ValueError
      end
  | Raise _ => Raise ValueError
  end.

(** [try: return parse(v).timestamp()
     except Exception: raise ValueError] *)
Definition from_text (parse : string -> option datetime) (s : string) : result value :=
  match parse s with
  | Some d =>
      match timestamp rt d with
      | Some t => Return (VFloat t)
      | None => Raise ValueError
      end
  | None => Raise ValueError
  end.

(** The block under [if val.type_ is datetime].  [Some x]: the block
    returned [x]; [None]: no branch was taken and control falls out of
    the block. *)
Definition datetime_block (v : value) : result (option value) :=
  is_numeric <- probe v ;;
  match v with
  | VNone => Return (Some VNone)
  | VDatetime d => Return (Some (VDatetime (replace_tzinfo d None)))
  | _ =>
      if type_in_int_float v || is_numeric then
        x <- from_number v ;; Return (Some x)
      else
        match v with
        | VStr s => x <- from_text (fromisoformat rt) s ;; Return (Some x)
        | _ => Return None
        end
  end.

(** The block under [if val.type_ is date]. *)
Definition date_block (v : value) : result (option value) :=
  is_numeric <- probe v ;;
  match v with
  | VNone => Return (Some VNone)
  | VDate d => Return (Some (VDate d))
  | _ =>
      if type_in_int_float v || is_numeric then
        x <- from_number v ;; Return (Some x)
      else
        match v with
        | VStr s =>
            x <- from_text (fun s => strptime rt s "%Y-%m-%d") s ;; Return (Some x)
        | _ => Return None
        end
  end.

Definition datetime_or_date_to_timestamp (type_ : field_type) (v : value) : result value :=
  r <- match type_ with
       | Tdatetime => datetime_block v
       | _ => Return None
       end ;;
  match r with
  | Some x => Return x
  | None =>
      r <- match type_ with
           | Tdate => date_block v
           | _ => Return None
           end ;;
      match r with
      | Some x => Return x
      | None => Return v
      end
  end.

End Validator.

End Schema.

(** ** A reference host: CPython with the local zone set to UTC

    It reads plain decimal literals as floats, ISO texts of the forms
    [YYYY-MM-DD] and [YYYY-MM-DD?HH:MM:SS], and [%Y-%m-%d] dates; other
    texts are refused.  The theorems quantify over every host; this one
    serves the worked examples. *)

Module Utc.

Local Open Scope Z_scope.

(** The float nearest to [p / q], ties to even, for [0 <= p] and [0 < q]:
    the quotient is taken with enough extra bits and a sticky last bit. *)
Definition float_of_ratio (neg : bool) (p q : Z) : float :=
  if p =? 0 then S754_zero neg
  else
    let s := Z.max 0 (Z.log2 q + 60 - Z.log2 p) in
    let n := p * 2 ^ s in
    let m := 2 * (n / q) + (if n mod q =? 0 then 0 else 1) in
    binary_normalize prec emax (if neg then - m else m) (- (s + 1)) false.

(** [p / q] rounded to the nearest integer, ties to even, for [0 < q]. *)
Definition round_half_even (p q : Z) : Z :=
  let n := p / q in
  let r := 2 * (p mod q) in
  if r <? q then n
  else if q <? r then n + 1
  else if Z.even n then n else n + 1.

Definition is_leap (y : Z) : bool :=
  (y mod 4 =? 0) && (negb (y mod 100 =? 0) || (y mod 400 =? 0)).

Definition days_in_month (y m : Z) : Z :=
  if m =? 2 then (if is_leap y then 29 else 28)
  else if (m =? 4) || (m =? 6) || (m =? 9) || (m =? 11) then 30
  else 31.

(** Days from 1970-01-01 to the given civil date. *)
Definition days_from_civil (y m d : Z) : Z :=
  let y' := if m <=? 2 then y - 1 else y in
  let era := y' / 400 in
  let yoe := y' - era * 400 in
  let doy := (153 * (if 2 <? m then m - 3 else m + 9) + 2) / 5 + d - 1 in
  let doe := yoe * 365 + yoe / 4 - yoe / 100 + doy in
  era * 146097 + doe - 719468.

(** The civil date a number of days after 1970-01-01. *)
Definition civil_from_days (days : Z) : Z * Z * Z :=
  let z := days + 719468 in
  let era := z / 146097 in
  let doe := z - era * 146097 in
  let yoe := (doe - doe / 1460 + doe / 36524 - doe / 146096) / 365 in
  let doy := doe - (365 * yoe + yoe / 4 - yoe / 100) in
  let mp := (5 * doy + 2) / 153 in
  let d := doy - (153 * mp + 2) / 5 + 1 in
  let m := if mp <? 10 then mp + 3 else mp - 9 in
  ((if m <=? 2 then yoe + era * 400 + 1 else yoe + era * 400), m, d).

(** The naive instant a whole number of seconds and microseconds after the
    epoch; refused outside the years 1 to 9999. *)
Definition of_epoch (secs us : Z) : option datetime :=
  let '(y, m, d) := civil_from_days (secs / 86400) in
  let sod := secs mod 86400 in
  if (1 <=? y) && (y <=? 9999) then
    Some {| year := y; month := m; day := d;
            hour := sod / 3600; minute := sod mod 3600 / 60; second := sod mod 60;
            microsecond := us; tzinfo := None |}
  else None.

(** [datetime.fromtimestamp(f)]: the seconds are split into a whole and a
    fractional part, the fraction is scaled to microseconds in float
    arithmetic and rounded half to even. *)
Definition utc_fromtimestamp (f : float) : option datetime :=
  match f with
  | S754_zero _ => of_epoch 0 0
  | S754_infinity _ | S754_nan => None
  | S754_finite neg m e =>
      let sgn := if neg then -1 else 1 in
      let den := 2 ^ (- e) in
      let whole := if 0 <=? e then Z.pos m * 2 ^ e else Z.pos m / den in
      let frac := if 0 <=? e then 0 else Z.pos m mod den in
      let scaled := SFmul prec emax (binary_normalize prec emax (sgn * frac) e false)
                                    (float_of_Z 1000000) in
      let us :=
        match scaled with
        | S754_finite n m' e' =>
            (if n then -1 else 1)
            * (if 0 <=? e' then Z.pos m' * 2 ^ e' else round_half_even (Z.pos m') (2 ^ (- e')))
        | _ => 0
        end in
      let secs := sgn * whole in
      if 1000000 <=? us then of_epoch (secs + 1) (us - 1000000)
      else if us <? 0 then of_epoch (secs - 1) (us + 1000000)
      else of_epoch secs us
  end.

(** Seconds from the epoch to the wall-clock reading of [d]. *)
Definition wall_seconds (d : datetime) : Z :=
  days_from_civil (year d) (month d) (day d) * 86400
  + hour d * 3600 + minute d * 60 + second d.

(** [d.timestamp()]: a naive value is read as local time, here UTC, and
    its microseconds are added in float arithmetic; an aware value is the
    exact distance to the epoch divided by a million. *)
Definition utc_timestamp (d : datetime) : option float :=
  match tzinfo d with
  | None =>
      Some (SFadd prec emax (float_of_Z (wall_seconds d))
              (SFdiv prec emax (float_of_Z (microsecond d)) (float_of_Z 1000000)))
  | Some offset =>
      let us := (wall_seconds d - offset) * 1000000 + microsecond d in
      Some (float_of_ratio (us <? 0) (Z.abs us) 1000000)
  end.

Definition digit (c : ascii) : option Z :=
  let n := Z.of_nat (nat_of_ascii c) in
  if (48 <=? n) && (n <=? 57) then Some (n - 48) else None.

(** Exactly [n] digits, as a number, and the text that follows. *)
Fixpoint digits (n : nat) (acc : Z) (s : string) : option (Z * string) :=
  match n with
  | O => Some (acc, s)
  | S n' =>
      match s with
      | String c s' =>
          match digit c with
          | Some k => digits n' (10 * acc + k) s'
          | None => None
          end
      | EmptyString => None
      end
  end.

(** All the leading digits: their number, how many they are, the rest. *)
Fixpoint leading_digits (acc count : Z) (s : string) : Z * Z * string :=
  match s with
  | String c s' =>
      match digit c with
      | Some k => leading_digits (10 * acc + k) (count + 1) s'
      | None => (acc, count, s)
      end
  | EmptyString => (acc, count, s)
  end.

Definition checked_date (y m d : Z) : bool :=
  (1 <=? y) && (y <=? 9999) && (1 <=? m) && (m <=? 12)
  && (1 <=? d) && (d <=? days_in_month y m).

Definition naive (y m d hh mm ss : Z) : option datetime :=
  if checked_date y m d && (hh <? 24) && (mm <? 60) && (ss <? 60) then
    Some {| year := y; month := m; day := d; hour := hh; minute := mm; second := ss;
            microsecond := 0; tzinfo := None |}
  else None.

(** [datetime.fromisoformat(s)] on [YYYY-MM-DD] and [YYYY-MM-DD?HH:MM:SS]. *)
Definition utc_fromisoformat (s : string) : option datetime :=
  match digits 4 0 s with
  | Some (y, String "-" s1) =>
      match digits 2 0 s1 with
      | Some (m, String "-" s2) =>
          match digits 2 0 s2 with
          | Some (d, EmptyString) => naive y m d 0 0 0
          | Some (d, String _ s3) =>
              match digits 2 0 s3 with
              | Some (hh, String ":" s4) =>
                  match digits 2 0 s4 with
                  | Some (mm, String ":" s5) =>
                      match digits 2 0 s5 with
                      | Some (ss, EmptyString) => naive y m d hh mm ss
                      | _ => None
                      end
                  | _ => None
                  end
              | _ => None
              end
          | None => None
          end
      | _ => None
      end
  | _ => None
  end.

(** [datetime.strptime(s, fmt)] for the one format the validator uses,
    on zero-padded dates. *)
Definition utc_strptime (s fmt : string) : option datetime :=
  if String.eqb fmt "%Y-%m-%d" then
    match digits 4 0 s with
    | Some (y, String "-" s1) =>
        match digits 2 0 s1 with
        | Some (m, String "-" s2) =>
            match digits 2 0 s2 with
            | Some (d, EmptyString) => naive y m d 0 0 0
            | _ => None
            end
        | _ => None
        end
    | _ => None
    end
  else None.

(** [float(s)] on an optional sign, digits, and an optional point followed
    by digits. *)
Definition utc_float_of_str (s : string) : option float :=
  let '(neg, body) :=
    match s with
    | String "-" s' => (true, s')
    | String "+" s' => (false, s')
    | _ => (false, s)
    end in
  let '(whole, n, rest) := leading_digits 0 0 body in
  if n =? 0 then None
  else
    match rest with
    | EmptyString => Some (float_of_ratio neg whole 1)
    | String "." rest' =>
        let '(all, k, tail) := leading_digits whole 0 rest' in
        match tail with
        | EmptyString => if k =? 0 then None else Some (float_of_ratio neg all (10 ^ k))
        | _ => None
        end
    | _ => None
    end.

Definition host : runtime :=
  {| float_of_str := utc_float_of_str;
     fromtimestamp := utc_fromtimestamp;
     fromisoformat := utc_fromisoformat;
     strptime := utc_strptime;
     timestamp := utc_timestamp |}.

End Utc.

(** The instant of the specification's example: May 1 2023, 12:00:00, naive. *)
Definition may_1_2023_noon : datetime :=
  {| year := 2023; month := 5; day := 1; hour := 12; minute := 0; second := 0;
     microsecond := 0; tzinfo := None |}.

(** ** Readings of the specification, to compare the code with *)

(** A field name without parentheses. *)
Definition no_paren (s : string) : Prop :=
  find "(" s = None /\ find ")" s = None.

(** The specification's reading of the parser: the direction runs from the
    first '(' up to the first ')' that comes after it. *)
Definition from_str_close_after_open (s : string) : result Sort.t :=
  i <- index s "(" ;;
  k <- index (substring (i + 1) (length s) s) ")" ;;
  Sort.init (slice s 0 i) (substring (i + 1) k s).

(** The specification's form of a sort token: a non-empty text followed by
    a member's value in parentheses. *)
Definition sort_token_form (s : string) : Prop :=
  exists w d, w <> "" /\ s = w ++ "(" ++ Sort.value d ++ ")".

(** What [Sort.query_regex ()] compiles to. *)
Definition sort_pattern : Re.regex :=
  Re.Seq Re.Bol
    (Re.Seq (Re.Plus Re.Dot)
       (Re.Seq (Re.Chr "(")
          (Re.Seq (Re.Alt (Re.lit (Sort.value Sort.ASC)) (Re.lit (Sort.value Sort.DESC)))
             (Re.Seq (Re.Chr ")") (Re.Seq Re.Eol Re.Eps))))).

(** One sort criterion as a query-string segment. *)
Definition sort_segment (i : Interp.t) (c : Sort.t) : string :=
  "sort=" ++ Sort.to_str i c ++ "&".

(** The descriptor of the specification's example: page 2, size 10, sorted
    by id descending. *)
Definition id_desc : Sort.t :=
  {| Sort.order_by := Some "id"; Sort.direction := Some Sort.DESC |}.

(** The text of the specification's example. *)
Definition iso_example : string := "2023-05-01T12:00:00".

(** ** The factory built by [Pageable.with_default_attribute]

    [with_default_attribute(sorts)] returns a function [new_standard] whose
    parameters are declared like those of [Pageable.standard], except that
    the default of [sort] is [list(map(Sort.to_str, sorts))], computed when
    the factory is built.  It is read here as a request reaches it. *)

Module Factory.

Definition with_default_attribute (i : Interp.t) (sorts : list Sort.t)
  (page size : option Z) (sort : list string) : result Pageable.t :=
  page <- Boundary.query_int 1 1 page ;;
  size <- Boundary.query_int 100 1 size ;;
  sort <- Boundary.query_texts (map (Sort.to_str i) sorts) Sort.query_regex sort ;;
  sorts' <- Pageable.map_result Sort.from_str sort ;;
  Pageable.init size page sorts'.

End Factory.

(** A criterion with both fields set and a field name free of parentheses. *)
Definition well_formed (c : Sort.t) : Prop :=
  exists ob d,
    c = {| Sort.order_by := Some ob; Sort.direction := Some d |} /\ no_paren ob.

(** A criterion that passes the boundary: both fields set, and a field
    name that is not empty and holds no parenthesis and no newline. *)
Definition boundary_safe (c : Sort.t) : Prop :=
  exists ob d,
    c = {| Sort.order_by := Some ob; Sort.direction := Some d |}
    /\ ob <> "" /\ no_paren ob /\ find Re.newline ob = None.

(** The inputs that [float] refuses with [TypeError]. *)
Definition not_a_number (v : value) : Prop :=
  match v with
  | VNone | VDatetime _ | VDate _ | VObject _ => True
  | _ => False
  end.

(** A criterion with both fields set and a field name without '&'. *)
Definition plain (c : Sort.t) : Prop :=
  exists ob d,
    c = {| Sort.order_by := Some ob; Sort.direction := Some d |} /\ find "&" ob = None.

(** The last [n] characters of a text. *)
Definition ending (n : nat) (s : string) : string := substring (length s - n) n s.

(** * Properties *)

(** ** Strings *)

Section StringFacts.

Lemma find_append_absent (c : ascii) (a b : string) :
  find c a = None ->
  find c (a ++ b) = option_map (Nat.add (length a)) (find c b).
Proof.
  induction a as [|x a IH]; simpl; intros H.
  - now destruct (find c b).
  - destruct (Ascii.eqb x c); [discriminate|].
    destruct (find c a); [discriminate|].
    rewrite (IH eq_refl). now destruct (find c b).
Qed.

Lemma find_head (c : ascii) (s : string) : find c (String c s) = Some 0.
Proof. simpl. now rewrite Ascii.eqb_refl. Qed.

Lemma find_first (c : ascii) (a b : string) :
  find c a = None -> find c (a ++ String c b) = Some (length a).
Proof.
  intros H. rewrite (find_append_absent _ _ _ H), find_head. simpl.
  now rewrite Nat.add_0_r.
Qed.

Lemma find_split (c : ascii) (s : string) (i : nat) :
  find c s = Some i ->
  exists pre post, s = pre ++ String c post /\ length pre = i /\ find c pre = None.
Proof.
  revert i. induction s as [|x s IH]; simpl; intros i H; [discriminate|].
  destruct (Ascii.eqb_spec x c) as [->|Hx].
  - injection H as <-. now exists "", s.
  - destruct (find c s) as [k|]; [|discriminate].
    injection H as <-. destruct (IH k eq_refl) as (pre & post & -> & <- & Hp).
    exists (String x pre), post. simpl. repeat split.
    destruct (Ascii.eqb_spec x c); [contradiction|]. now rewrite Hp.
Qed.

Lemma find_append_none (c : ascii) (a b : string) :
  find c (a ++ b) = None -> find c a = None.
Proof.
  induction a as [|x a IH]; simpl; [reflexivity|].
  destruct (Ascii.eqb x c); [discriminate|].
  destruct (find c (a ++ b)); [discriminate|].
  intros _. now rewrite IH.
Qed.

Lemma substring_zero (n : nat) (s : string) : substring n 0 s = "".
Proof. revert s. induction n; intros [|x s]; simpl; auto. Qed.

Lemma substring_prefix (a b : string) : substring 0 (length a) (a ++ b) = a.
Proof.
  induction a as [|x a IH]; simpl.
  - now destruct b.
  - now rewrite IH.
Qed.

Lemma substring_skip (a b : string) (n m : nat) :
  substring (length a + n) m (a ++ b) = substring n m b.
Proof. induction a; simpl; auto. Qed.

Lemma append_split (a b x y : string) :
  a ++ x = b ++ y -> length a <= length b ->
  exists m, b = a ++ m /\ x = m ++ y.
Proof.
  revert b. induction a as [|c a IH]; simpl; intros b H L.
  - now exists b.
  - destruct b as [|d b]; simpl in *; [lia|].
    injection H as -> H. destruct (IH b H) as (m & -> & ->); [lia|].
    now exists m.
Qed.

Lemma append_assoc (a b c : string) : (a ++ b) ++ c = a ++ b ++ c.
Proof. induction a; simpl; congruence. Qed.

Lemma length_append (a b : string) : length (a ++ b) = length a + length b.
Proof. induction a; simpl; auto. Qed.

End StringFacts.

(** ** Sort criteria *)

Section SortFacts.

Lemma value_no_paren (d : Sort.Direction) : no_paren (Sort.value d).
Proof. now destruct d. Qed.

Lemma value_nonempty (d : Sort.Direction) : Sort.value d <> "".
Proof. now destruct d. Qed.

Lemma Direction_of_value (d : Sort.Direction) :
  Sort.Direction_of (Sort.value d) = Some d.
Proof. now destruct d. Qed.

Lemma Direction_of_Some (text : string) (d : Sort.Direction) :
  Sort.Direction_of text = Some d -> text = Sort.value d.
Proof.
  unfold Sort.Direction_of, Sort.members.
  cbn [List.find Sort.value].
  destruct (String.eqb_spec "asc" text) as [<-|_].
  - now intros [= <-].
  - destruct (String.eqb_spec "desc" text) as [<-|_]; [|discriminate].
    now intros [= <-].
Qed.

(** Parsing a token [ob(dir)rest] whose field name has no parenthesis. *)
Lemma from_str_token (ob rest : string) (d : Sort.Direction) :
  no_paren ob ->
  Sort.from_str (ob ++ "(" ++ Sort.value d ++ ")" ++ rest)
  = Return {| Sort.order_by := Some ob; Sort.direction := Some d |}.
Proof.
  intros [Ho Hc]. unfold Sort.from_str, index.
  change (ob ++ "(" ++ Sort.value d ++ ")" ++ rest)
    with (ob ++ String "(" (Sort.value d ++ String ")" rest)).
  rewrite (find_first _ _ _ Ho). simpl bind.
  rewrite (find_append_absent _ _ _ Hc).
  assert (Hv : find ")" (String "(" (Sort.value d ++ String ")" rest))
               = Some (S (length (Sort.value d)))).
  { simpl. now rewrite (find_first _ _ _ (proj2 (value_no_paren d))). }
  rewrite Hv. simpl option_map. simpl bind. unfold slice.
  rewrite Nat.sub_0_r, substring_prefix.
  replace (length ob + S (length (Sort.value d)) - (length ob + 1))
    with (length (Sort.value d)) by lia.
  rewrite substring_skip. simpl substring at 1.
  rewrite substring_prefix. unfold Sort.init.
  now rewrite Direction_of_value.
Qed.

(** Every successful parse comes from such a token. *)
Lemma from_str_inv (s : string) (c : Sort.t) :
  Sort.from_str s = Return c ->
  exists ob d rest,
    c = {| Sort.order_by := Some ob; Sort.direction := Some d |}
    /\ no_paren ob
    /\ s = ob ++ "(" ++ Sort.value d ++ ")" ++ rest.
Proof.
  unfold Sort.from_str, index.
  destruct (find "(" s) as [i|] eqn:Hi; [|discriminate]. simpl bind.
  destruct (find ")" s) as [j|] eqn:Hj; [|discriminate]. simpl bind.
  unfold Sort.init.
  destruct (Sort.Direction_of (slice s (i + 1) j)) as [d|] eqn:Hd; [|discriminate].
  intros [= <-]. apply Direction_of_Some in Hd.
  destruct (find_split _ _ _ Hi) as (pre & post & Hs & Li & Hpre).
  destruct (find_split _ _ _ Hj) as (pre' & post' & Hs' & Lj & Hpre').
  destruct (Nat.le_gt_cases j (i + 1)) as [Hle|Hgt].
  { exfalso. apply (value_nonempty d). rewrite <- Hd. unfold slice.
    replace (j - (i + 1)) with 0 by lia. apply substring_zero. }
  assert (Hsplit : exists m, pre' = (pre ++ "(") ++ m /\ post = m ++ String ")" post').
  { apply append_split.
    - rewrite append_assoc. simpl. congruence.
    - rewrite length_append. simpl. lia. }
  destruct Hsplit as (m & Hp' & ->).
  assert (Hm : slice s (i + 1) j = m).
  { unfold slice. rewrite Hs. subst pre'.
    rewrite !length_append in Lj. simpl in Lj.
    replace (j - (i + 1)) with (length m) by lia.
    rewrite <- Li.
    change (pre ++ String "(" (m ++ String ")" post'))
      with (pre ++ "(" ++ m ++ String ")" post').
    rewrite <- append_assoc.
    replace (length pre + 1) with (length (pre ++ "(") + 0)
      by (rewrite length_append; simpl; lia).
    rewrite substring_skip. apply substring_prefix. }
  exists pre, d, post'. split; [|split].
  - unfold slice. rewrite Nat.sub_0_r, Hs, <- Li. now rewrite substring_prefix.
  - split; [assumption|].
    subst pre'. rewrite append_assoc in Hpre'.
    now apply find_append_none in Hpre'.
  - rewrite Hs. rewrite <- Hd, Hm. reflexivity.
Qed.

End SortFacts.

Section RenderingFacts.

Lemma append_inv_head (a x y : string) : a ++ x = a ++ y -> x = y.
Proof. induction a as [|c a IH]; simpl; [auto|]. intros [= H]. auto. Qed.

(** Parsing [ob(b)rest] when neither [ob] nor [b] holds a parenthesis. *)
Lemma from_str_delimited (ob b rest : string) :
  no_paren ob -> no_paren b ->
  Sort.from_str (ob ++ "(" ++ b ++ ")" ++ rest) = Sort.init ob b.
Proof.
  intros [Ho Hc] [_ Hb]. unfold Sort.from_str, index.
  change (ob ++ "(" ++ b ++ ")" ++ rest) with (ob ++ String "(" (b ++ String ")" rest)).
  rewrite (find_first _ _ _ Ho). simpl bind.
  rewrite (find_append_absent _ _ _ Hc).
  assert (Hv : find ")" (String "(" (b ++ String ")" rest)) = Some (S (length b))).
  { simpl. now rewrite (find_first _ _ _ Hb). }
  rewrite Hv. simpl option_map. simpl bind. unfold slice.
  rewrite Nat.sub_0_r, substring_prefix.
  replace (length ob + S (length b) - (length ob + 1)) with (length b) by lia.
  rewrite substring_skip. simpl substring at 1.
  now rewrite substring_prefix.
Qed.

Lemma format_member_no_paren (i : Interp.t) (d : Sort.Direction) :
  no_paren (Sort.format_member i d).
Proof. unfold Sort.format_member. now destruct (Interp.enum_format_of i), d. Qed.

Lemma format_member_by_value (i : Interp.t) (d : Sort.Direction) :
  Interp.enum_format_of i = Interp.ByValue -> Sort.format_member i d = Sort.value d.
Proof. unfold Sort.format_member. now intros ->. Qed.

Lemma format_member_by_name (i : Interp.t) (d : Sort.Direction) :
  Interp.enum_format_of i = Interp.ByName ->
  Sort.format_member i d = "Direction." ++ Sort.name d.
Proof. unfold Sort.format_member. now intros ->. Qed.

(** A rendered criterion with a field name free of parentheses parses as
    far as its direction text is a member's value. *)
Lemma from_str_rendered (i : Interp.t) (ob : string) (d : Sort.Direction) :
  no_paren ob ->
  Sort.from_str (Sort.to_str i {| Sort.order_by := Some ob; Sort.direction := Some d |})
  = Sort.init ob (Sort.format_member i d).
Proof.
  intros H. unfold Sort.to_str.
  cbn [Sort.order_by Sort.direction Sort.format_str Sort.format_direction].
  exact (from_str_delimited ob (Sort.format_member i d) "" H (format_member_no_paren i d)).
Qed.

End RenderingFacts.

(** C6 fails on the code under CPython 3.11 and later.  [to_str] renders
    the direction with an f-string, which there gives the names of the class
    and of the member, as in "id(Direction.DESC)", while [from_str] and the
    pattern of [query_regex] expect the member's value.  There no criterion
    is given back by parsing its rendering, and one whose field name has no
    parenthesis is refused with [ValidationError].  Where the f-string
    renders the value, as up to CPython 3.10, the round trip holds as the
    claim says. *)
Theorem to_str_rendering_breaks_roundtrip :
  (forall i c, Interp.enum_format_of i = Interp.ByName ->
     Sort.from_str (Sort.to_str i c) <> Return c)
  /\ (forall i ob d, Interp.enum_format_of i = Interp.ByName -> no_paren ob ->
        Sort.from_str (Sort.to_str i {| Sort.order_by := Some ob; Sort.direction := Some d |})
        = Raise ValidationError)
  /\ Sort.to_str Interp.cpython_3_11 id_desc = "id(Direction.DESC)"
  /\ Sort.from_str (Sort.to_str Interp.cpython_3_11 id_desc) = Raise ValidationError
  /\ (forall i ob d, Interp.enum_format_of i = Interp.ByValue -> no_paren ob ->
        Sort.from_str (Sort.to_str i {| Sort.order_by := Some ob; Sort.direction := Some d |})
        = Return {| Sort.order_by := Some ob; Sort.direction := Some d |}).
Proof.
  split; [|split; [|split; [|split]]].
  - intros i c Hi H. pose proof H as H'.
    apply from_str_inv in H' as (ob & d & rest & -> & Hp & Hs).
    unfold Sort.to_str in Hs.
    cbn [Sort.order_by Sort.direction Sort.format_str Sort.format_direction] in Hs.
    rewrite (format_member_by_name i d Hi) in Hs.
    apply append_inv_head in Hs. destruct d; discriminate.
  - intros i ob d Hi Hp. rewrite (from_str_rendered i ob d Hp).
    rewrite (format_member_by_name i d Hi). now destruct d.
  - reflexivity.
  - reflexivity.
  - intros i ob d Hi Hp. rewrite (from_str_rendered i ob d Hp).
    rewrite (format_member_by_value i d Hi). unfold Sort.init.
    now rewrite Direction_of_value.
Qed.

(** C7, as the specification words it, fails: the direction does not stop at
    the first ')' after the '(' but at the first ')' of the whole text, so a
    text whose first ')' precedes its first '(' is rejected. *)
Lemma from_str_close_before_open :
  Sort.from_str "a)b(asc)" = Raise ValidationError
  /\ from_str_close_after_open "a)b(asc)"
     = Return {| Sort.order_by := Some "a)b"; Sort.direction := Some Sort.ASC |}.
Proof. split; reflexivity. Qed.

(** C7, amended: for every text, [from_str] takes what precedes the first '('
    as the field name and what lies between that '(' and the first ')' of the
    text as the direction (nothing, when that ')' is not after the '(').  It
    succeeds exactly on the texts [ob(dir)rest] where [ob] has no parenthesis
    and [dir] is the value of a member; it raises [ValueError] when a
    delimiter is absent and pydantic's [ValidationError], a [ValueError], when
    the direction is not a member's value.  In particular "score(asc)" parses
    to the field "score", ascending. *)
Theorem from_str_first_parens (s : string) :
  (forall c, Sort.from_str s = Return c <->
     exists ob d rest,
       c = {| Sort.order_by := Some ob; Sort.direction := Some d |}
       /\ no_paren ob
       /\ s = ob ++ "(" ++ Sort.value d ++ ")" ++ rest)
  /\ (forall i j, find "(" s = Some i -> find ")" s = Some j ->
        Sort.from_str s = Sort.init (slice s 0 i) (slice s (i + 1) j))
  /\ (find "(" s = None \/ find ")" s = None -> Sort.from_str s = Raise ValueError)
  /\ (forall i j, find "(" s = Some i -> find ")" s = Some j ->
        Sort.Direction_of (slice s (i + 1) j) = None ->
        Sort.from_str s = Raise ValidationError)
  /\ (forall e, Sort.from_str s = Raise e -> is_ValueError e = true)
  /\ Sort.from_str "score(asc)"
     = Return {| Sort.order_by := Some "score"; Sort.direction := Some Sort.ASC |}.
Proof.
  repeat split.
  - apply from_str_inv.
  - intros (ob & d & rest & -> & H & ->). now apply from_str_token.
  - intros i j Hi Hj. unfold Sort.from_str, index. now rewrite Hi, Hj.
  - intros [H|H]; unfold Sort.from_str, index; rewrite H; simpl; [reflexivity|].
    now destruct (find "(" s).
  - intros i j Hi Hj Hd. unfold Sort.from_str, index. rewrite Hi, Hj. simpl.
    unfold Sort.init. now rewrite Hd.
  - unfold Sort.from_str, index, Sort.init.
    destruct (find "(" s); simpl; [|now intros e [= <-]].
    destruct (find ")" s); simpl; [|now intros e [= <-]].
    destruct (Sort.Direction_of _); [discriminate|now intros e [= <-]].
Qed.

(** ** The validation pattern *)

Section RegexFacts.

Import Re.

Lemma compile_query_regex : compile Sort.query_regex = Some sort_pattern.
Proof. reflexivity. Qed.

Lemma in_run_seq (a b : regex) (st0 st : state) :
  In st (run (Seq a b) st0) <-> exists st1, In st1 (run a st0) /\ In st (run b st1).
Proof. simpl. apply in_flat_map. Qed.

Lemma in_run_alt (a b : regex) (st0 st : state) :
  In st (run (Alt a b) st0) <-> In st (run a st0) \/ In st (run b st0).
Proof. simpl. apply in_app_iff. Qed.

Lemma in_run_eps (st0 st : state) : In st (run Eps st0) <-> st = st0.
Proof. simpl. intuition congruence. Qed.

Lemma in_run_bol (st0 st : state) :
  In st (run Bol st0) <-> st = st0 /\ fst st0 = true.
Proof.
  simpl. destruct (fst st0); simpl; intuition (congruence || discriminate).
Qed.

Lemma in_run_eol (st0 st : state) :
  In st (run Eol st0)
  <-> st = st0 /\ (snd st0 = "" \/ snd st0 = String newline "").
Proof.
  simpl. destruct (snd st0) as [|c [|d r]]; simpl.
  - intuition congruence.
  - destruct (Ascii.eqb_spec c newline) as [->|Hc]; simpl.
    + intuition congruence.
    + intuition (try discriminate). congruence.
  - intuition discriminate.
Qed.

Lemma in_run_chr (c : ascii) (st0 st : state) :
  In st (run (Chr c) st0) <-> snd st0 = String c (snd st) /\ fst st = false.
Proof.
  simpl. destruct st as [b r]. destruct (snd st0) as [|c' s']; simpl.
  - intuition discriminate.
  - destruct (Ascii.eqb_spec c' c) as [->|Hc]; simpl.
    + split.
      * intros [[= <- <-]|[]]. auto.
      * intros [[= <-] ->]. auto.
    + split; [intros []|]. intros [[= E _] _]. congruence.
Qed.

Lemma in_run_dot (st0 st : state) :
  In st (run Dot st0)
  <-> exists c, c <> newline /\ snd st0 = String c (snd st) /\ fst st = false.
Proof.
  simpl. destruct st as [b r]. destruct (snd st0) as [|c s']; simpl.
  - split; [intros []|]. intros (c & _ & [=] & _).
  - destruct (Ascii.eqb_spec c newline) as [->|Hc]; simpl.
    + split; [intros []|]. intros (c & Hc & [= <- _] & _). congruence.
    + split.
      * intros [[= <- <-]|[]]. now exists c.
      * intros (c' & _ & [= <- <-] & ->). auto.
Qed.

(** [.+] consumes a non-empty run of characters that holds no newline. *)
Lemma in_plus_dot (n : nat) (st0 st : state) :
  length (snd st0) <= n ->
  In st (plus_run (run Dot) n st0)
  <-> exists w, w <> "" /\ find newline w = None
                /\ snd st0 = w ++ snd st /\ fst st = false.
Proof.
  revert st0. induction n as [|n IH]; intros st0 L.
  - simpl. split; [intros []|]. intros (w & Hw & _ & E & _).
    destruct w; [congruence|]. rewrite E in L. simpl in L. lia.
  - cbn [plus_run]. rewrite in_app_iff, in_flat_map. split.
    + intros [H|(st1 & H1 & H)].
      * apply in_run_dot in H as (c & Hc & E & F).
        exists (String c ""). simpl. repeat split; try congruence.
        destruct (Ascii.eqb_spec c newline); congruence.
      * apply in_run_dot in H1 as (c & Hc & E & F).
        apply IH in H as (w & Hw & Hn & E' & F'); [|rewrite E in L; simpl in L; lia].
        exists (String c w). simpl. repeat split; try congruence.
        destruct (Ascii.eqb_spec c newline); [congruence|]. now rewrite Hn.
    + intros (w & Hw & Hn & E & F). destruct w as [|c w]; [congruence|].
      simpl in Hn. destruct (Ascii.eqb_spec c newline) as [|Hc]; [discriminate|].
      destruct (find newline w) eqn:Hn'; [discriminate|].
      destruct w as [|d w].
      * left. apply in_run_dot. exists c. auto.
      * right. exists (false, String d w ++ snd st). split.
        -- apply in_run_dot. exists c. auto.
        -- apply IH; [simpl; rewrite E in L; simpl in L; lia|].
           exists (String d w). repeat split; auto. discriminate.
Qed.

Lemma in_run_lit (w : string) (st0 st : state) :
  w <> "" ->
  In st (run (lit w) st0) <-> snd st0 = w ++ snd st /\ fst st = false.
Proof.
  revert st0. induction w as [|c w IH]; intros st0 Hw; [congruence|].
  cbn [lit]. rewrite in_run_seq. destruct w as [|d w].
  - split.
    + intros (st1 & H1 & H). apply in_run_eps in H as ->.
      now apply in_run_chr in H1.
    + intros H. exists st. split; [now apply in_run_chr|now apply in_run_eps].
  - split.
    + intros (st1 & H1 & H). apply in_run_chr in H1 as [E _].
      apply IH in H as [E' F]; [|discriminate]. split; [|assumption].
      rewrite E, E'. reflexivity.
    + intros [E F]. exists (false, String d w ++ snd st). split.
      * now apply in_run_chr.
      * apply IH; [discriminate|]. auto.
Qed.

Lemma in_run_direction (st0 st : state) :
  In st (run (Alt (lit (Sort.value Sort.ASC)) (lit (Sort.value Sort.DESC))) st0)
  <-> exists d, snd st0 = Sort.value d ++ snd st /\ fst st = false.
Proof.
  rewrite in_run_alt, !in_run_lit by discriminate. split.
  - intros [H|H]; [now exists Sort.ASC|now exists Sort.DESC].
  - intros ([|] & H); auto.
Qed.

(** The texts on which the compiled pattern finds a match. *)
Lemma sort_pattern_accepts (s : string) :
  (exists st, In st (run sort_pattern (true, s)))
  <-> exists w d, w <> "" /\ find newline w = None
        /\ (s = w ++ "(" ++ Sort.value d ++ ")"
            \/ s = w ++ "(" ++ Sort.value d ++ ")" ++ String newline "").
Proof.
  unfold sort_pattern. split.
  - intros (st & H).
    apply in_run_seq in H as (st1 & H1 & H). apply in_run_bol in H1 as [-> _].
    apply in_run_seq in H as (st2 & H2 & H). cbn [run snd] in H2.
    apply in_plus_dot in H2 as (w & Hw & Hn & E2 & _); [|reflexivity].
    apply in_run_seq in H as (st3 & H3 & H). apply in_run_chr in H3 as [E3 _].
    apply in_run_seq in H as (st4 & H4 & H).
    apply in_run_direction in H4 as (d & E4 & _).
    apply in_run_seq in H as (st5 & H5 & H). apply in_run_chr in H5 as [E5 _].
    apply in_run_seq in H as (st6 & H6 & H). apply in_run_eol in H6 as [-> E6].
    exists w, d. repeat split; auto. simpl in E2.
    rewrite E2, E3, E4, E5.
    destruct E6 as [-> | ->]; [left|right]; reflexivity.
  - intros (w & d & Hw & Hn & E).
    assert (exists tl, (tl = "" \/ tl = String newline "")
                       /\ s = w ++ "(" ++ Sort.value d ++ ")" ++ tl) as (tl & Htl & ->).
    { destruct E as [-> | ->]; [exists ""|exists (String newline "")]; auto. }
    exists (false, tl).
    apply in_run_seq. exists (true, w ++ "(" ++ Sort.value d ++ ")" ++ tl).
    split; [now apply in_run_bol|].
    apply in_run_seq. exists (false, "(" ++ Sort.value d ++ ")" ++ tl). split.
    { cbn [run snd]. apply in_plus_dot; [reflexivity|]. exists w. auto. }
    apply in_run_seq. exists (false, Sort.value d ++ ")" ++ tl).
    split; [now apply in_run_chr|].
    apply in_run_seq. exists (false, ")" ++ tl).
    split; [apply in_run_direction; now exists d|].
    apply in_run_seq. exists (false, tl). split; [now apply in_run_chr|].
    apply in_run_seq. exists (false, tl). split; [now apply in_run_eol|].
    now apply in_run_eps.
Qed.

Lemma matches_query_regex (s : string) :
  matches Sort.query_regex s
  = Some (match run sort_pattern (true, s) with [] => false | _ => true end).
Proof. unfold matches. now rewrite compile_query_regex. Qed.

End RegexFacts.

Section TokenFacts.

Lemma token_ends_with_paren (s : string) :
  sort_token_form s -> exists t, s = t ++ ")".
Proof.
  intros (w & d & _ & ->). exists (w ++ "(" ++ Sort.value d).
  now rewrite !append_assoc.
Qed.

End TokenFacts.

(** C9, as the specification words it, fails: under Python's matching rules
    the pattern also accepts a token followed by one newline, which is not of
    the form [text(asc|desc)], and it refuses a token of that form whose text
    holds a newline. *)
Lemma query_regex_newline_cases :
  (Re.matches Sort.query_regex ("id(desc)" ++ String Re.newline "") = Some true
   /\ ~ sort_token_form ("id(desc)" ++ String Re.newline ""))
  /\ (Re.matches Sort.query_regex ("a" ++ String Re.newline "b(asc)") = Some false
      /\ sort_token_form ("a" ++ String Re.newline "b(asc)")).
Proof.
  repeat split.
  - intros H. apply token_ends_with_paren in H as (t & H).
    do 9 (destruct t as [|? t]; [discriminate|]; injection H as _ H).
    destruct t; discriminate.
  - exists ("a" ++ String Re.newline "b"), Sort.ASC. split; [discriminate|reflexivity].
Qed.

(** C9, amended: [Sort.query_regex ()] is the pattern "^.+\((?:asc|desc)\)$",
    built from the values of [Direction].  It matches exactly the texts
    [w(asc)] and [w(desc)], alone or followed by one final newline, where [w]
    is a non-empty text that holds no newline.  In particular it matches
    "id(desc)" and "name(asc)" and rejects "id(ascending)" and "id". *)
Theorem query_regex_matches :
  Sort.query_regex = "^.+\((?:asc|desc)\)$"
  /\ (forall s, Re.matches Sort.query_regex s = Some true <->
        exists w d, w <> "" /\ find Re.newline w = None
          /\ (s = w ++ "(" ++ Sort.value d ++ ")"
              \/ s = w ++ "(" ++ Sort.value d ++ ")" ++ String Re.newline ""))
  /\ (forall s, Re.matches Sort.query_regex s <> None)
  /\ Re.matches Sort.query_regex "id(desc)" = Some true
  /\ Re.matches Sort.query_regex "name(asc)" = Some true
  /\ Re.matches Sort.query_regex "id(ascending)" = Some false
  /\ Re.matches Sort.query_regex "id" = Some false.
Proof.
  split; [reflexivity|]. split; [|split; [|repeat split]].
  - intros s. rewrite matches_query_regex, <- sort_pattern_accepts.
    destruct (Re.run sort_pattern (true, s)) as [|st l].
    + split; [discriminate|]. now intros (st & []).
    + split; [|reflexivity]. intros _. exists st. now left.
  - intros s. now rewrite matches_query_regex.
Qed.

(** C10: a token exists, "a(b(asc)", that the boundary pattern accepts and
    that [Sort.from_str] nevertheless fails to parse. *)
Theorem accepted_token_fails_to_parse :
  exists s, Re.matches Sort.query_regex s = Some true
            /\ exists e, Sort.from_str s = Raise e.
Proof.
  exists "a(b(asc)". split; [reflexivity|]. now exists ValidationError.
Qed.

(** ** Page requests *)

Section PageableFacts.

Import Pageable.

Lemma drop_last_separator (x : string) : drop_last (x ++ "&") = x.
Proof.
  unfold drop_last. rewrite length_append. simpl.
  replace (length x + 1 - 1) with (length x) by lia.
  apply substring_prefix.
Qed.

Lemma render_list_sorts (i : Interp.t) (l : list Sort.t) :
  render_list i "sort" (map Sort_dict l)
  = Return (fold_right append "" (map (sort_segment i) l)).
Proof.
  induction l as [|c l IH]; [reflexivity|].
  cbn [map render_list fold_right]. rewrite IH.
  generalize (fold_right append "" (map (sort_segment i) l)). intros rest.
  unfold sort_segment, Sort.to_str.
  destruct c as [[ob|] [d|]]; simpl;
    rewrite ?append_assoc; simpl; rewrite ?append_assoc; reflexivity.
Qed.


Lemma format_int_text (i : Interp.t) (z : Z) (s : string) :
  Interp.format_int i z = Return s -> s = str_of_int z.
Proof.
  unfold Interp.format_int. destruct (_ && _ && _); [discriminate|]. now intros [= <-].
Qed.

Lemma init_stores (size page : Z) (sort : list Sort.t) :
  init size page sort = Return {| sort := sort; size := size; page := page |}.
Proof. reflexivity. Qed.

Lemma to_api_query_fields (i : Interp.t) (size page : Z) (sort : list Sort.t) :
  to_api_query i {| sort := sort; size := size; page := page |}
  = (s <- Interp.format_int i size ;;
     g <- Interp.format_int i page ;;
     Return (fold_right append "" (map (sort_segment i) sort)
             ++ "size=" ++ s ++ "&page=" ++ g)).
Proof.
  unfold to_api_query, dict. cbn [render_items Pageable.sort Pageable.size Pageable.page].
  rewrite render_list_sorts. cbn [bind format].
  destruct (Interp.format_int i size) as [s|e]; cbn [bind]; [|reflexivity].
  destruct (Interp.format_int i page) as [g|e]; cbn [bind]; [|reflexivity].
  f_equal. rewrite <- drop_last_separator. f_equal.
  simpl. rewrite !append_assoc. simpl. rewrite !append_assoc. reflexivity.
Qed.

End PageableFacts.

(** C1 fails on the code: [Pageable.__init__] builds the model from its
    defaults and then assigns the three arguments, and assignment is not
    validated, so the bound [gt=0] declared on [size] and [page] is never
    applied to them.  Construction with size 0 or page 0 returns a
    descriptor, as does every direct construction. *)
Theorem init_accepts_zero :
  Pageable.init 0 1 [] = Return {| Pageable.sort := []; Pageable.size := 0; Pageable.page := 1 |}
  /\ Pageable.init 100 0 [] = Return {| Pageable.sort := []; Pageable.size := 100; Pageable.page := 0 |}
  /\ (forall size page sort,
        Pageable.init size page sort
        = Return {| Pageable.sort := sort; Pageable.size := size; Pageable.page := page |})
  /\ Pageable.BaseModel_init None (Some 0%Z) None = Raise ValidationError.
Proof. repeat split. Qed.



(** ** Temporal coercion *)

Section ValidatorFacts.

Import Schema.
Variable rt : runtime.

(** An input that [float] refuses with [TypeError] leaves the validator
    with that error, whatever the temporal type: the probe only handles
    [ValueError]. *)
Lemma probe_TypeError (v : value) :
  float_ rt v = Raise TypeError ->
  datetime_block rt v = Raise TypeError /\ date_block rt v = Raise TypeError.
Proof.
  intros H. unfold datetime_block, date_block, probe. now rewrite H.
Qed.

Lemma float_kind (v : value) (f : float) :
  float_ rt v = Return f ->
  probe rt v = Return true
  /\ match v with VBool _ | VInt _ | VFloat _ | VStr _ => True | _ => False end.
Proof.
  intros H. unfold probe. rewrite H. split; [reflexivity|].
  destruct v; simpl in H; try discriminate; exact I.
Qed.

(** A value that converts to a float takes the timestamp branch. *)
Lemma numeric_input (v : value) (f : float) :
  float_ rt v = Return f ->
  datetime_or_date_to_timestamp rt Tdatetime v
  = match fromtimestamp rt f with
    | Some d => Return (VDatetime d)
    | None => Raise ValueError
    end.
Proof.
  intros H. destruct (float_kind v f H) as [Hp Hk].
  unfold datetime_or_date_to_timestamp, datetime_block, from_number.
  rewrite Hp. cbn [bind]. rewrite orb_true_r.
  destruct v; try contradiction; rewrite H; cbn [bind];
    now destruct (fromtimestamp rt f).
Qed.

(** A text that is no number is parsed and turned into a timestamp. *)
Lemma text_input (s : string) :
  float_of_str rt s = None ->
  datetime_or_date_to_timestamp rt Tdatetime (VStr s)
  = from_text rt (fromisoformat rt) s.
Proof.
  intros H. unfold datetime_or_date_to_timestamp, datetime_block, probe.
  cbn [float_]. rewrite H. cbn.
  now destruct (from_text rt (fromisoformat rt) s).
Qed.

End ValidatorFacts.

(** C2 fails on the code: on a field typed [datetime] or [date] the
    validator first evaluates [bool(float(v))] and handles [ValueError]
    only; [float(None)] raises [TypeError], so the branch [if v is None:
    return] is never reached and the validator raises. *)
Theorem null_input_raises_TypeError (rt : runtime) :
  Schema.datetime_or_date_to_timestamp rt Schema.Tdatetime VNone = Raise TypeError
  /\ Schema.datetime_or_date_to_timestamp rt Schema.Tdate VNone = Raise TypeError.
Proof. split; reflexivity. Qed.

(** C5 fails on the code, by the same probe: [float] of a [datetime] or of
    a [date] raises [TypeError], so neither the branch that strips the zone
    nor the one that returns the date unchanged is reached. *)
Theorem canonical_input_raises_TypeError (rt : runtime) (d : datetime) (c : date) :
  Schema.datetime_or_date_to_timestamp rt Schema.Tdatetime (VDatetime d) = Raise TypeError
  /\ Schema.datetime_or_date_to_timestamp rt Schema.Tdate (VDate c) = Raise TypeError.
Proof. split; reflexivity. Qed.

(** C8 fails on the code for integers beyond the float range: [float(v)]
    raises [OverflowError] in the probe, which handles [ValueError] only, so
    the error leaves the validator as it is instead of becoming the
    [ValueError] of a rejected value.  Every input that does convert to a
    float [f] is answered by [datetime.fromtimestamp(f)], and by
    [ValueError] when that call fails. *)
Theorem huge_int_raises_OverflowError (rt : runtime) :
  Schema.datetime_or_date_to_timestamp rt Schema.Tdatetime (VInt (10 ^ 400))
  = Raise OverflowError
  /\ (forall v f, Schema.float_ rt v = Return f ->
        Schema.datetime_or_date_to_timestamp rt Schema.Tdatetime v
        = match fromtimestamp rt f with
          | Some d => Return (VDatetime d)
          | None => Raise ValueError
          end).
Proof. split; [vm_compute; reflexivity|apply numeric_input]. Qed.

(** C4, as the specification words it, fails: the text branch returns the
    timestamp of the parsed instant, a float, and not the instant. *)
Lemma iso_text_is_not_returned_as_instant :
  Schema.datetime_or_date_to_timestamp Utc.host Schema.Tdatetime (VStr iso_example)
  <> Return (VDatetime may_1_2023_noon).
Proof. vm_compute. discriminate. Qed.

(** C4, amended: on a field typed [datetime], a text that is no number is
    parsed with [datetime.fromisoformat] and answered by the Unix timestamp
    of the parsed instant, [parsed.timestamp()], a float; when the text does
    not conform, or the timestamp cannot be taken, the coercion fails with
    [ValueError].  For "2023-05-01T12:00:00" that is the timestamp of the
    naive instant May 1 2023, 12:00:00 (1682942400.0 where the local zone
    is UTC). *)
Theorem iso_text_becomes_timestamp (rt : runtime) (s : string) :
  float_of_str rt s = None ->
  Schema.datetime_or_date_to_timestamp rt Schema.Tdatetime (VStr s)
  = match fromisoformat rt s with
    | Some d =>
        match timestamp rt d with
        | Some t => Return (VFloat t)
        | None => Raise ValueError
        end
    | None => Raise ValueError
    end.
Proof. intros H. now rewrite text_input. Qed.

(** The specification's example on the reference host: the text is no
    number, it parses to May 1 2023, 12:00:00, and the validator answers
    1682942400.0. *)
Lemma iso_text_becomes_timestamp_witness :
  float_of_str Utc.host iso_example = None
  /\ fromisoformat Utc.host iso_example = Some may_1_2023_noon
  /\ Schema.datetime_or_date_to_timestamp Utc.host Schema.Tdatetime (VStr iso_example)
     = Return (VFloat (float_of_Z 1682942400)).
Proof.
  split; [reflexivity|]. split; [reflexivity|].
  exact (eq_trans (iso_text_becomes_timestamp Utc.host iso_example eq_refl) eq_refl).
Defined.

(** ** Further properties of the code *)

(** A field of any type other than [datetime] and [date] is left as it
    is. *)
Theorem other_types_pass_through (rt : runtime) (v : value) :
  Schema.datetime_or_date_to_timestamp rt Schema.Tother v = Return v.
Proof. reflexivity. Qed.

(** X2: on a field typed [date], an input that converts to a float [f] is
    answered by [datetime.fromtimestamp(f)], an instant and not a calendar
    date, and by [ValueError] when that call fails. *)
Theorem date_field_number_becomes_instant (rt : runtime) (v : value) (f : float) :
  Schema.float_ rt v = Return f ->
  Schema.datetime_or_date_to_timestamp rt Schema.Tdate v
  = match fromtimestamp rt f with
    | Some d => Return (VDatetime d)
    | None => Raise ValueError
    end.
Proof.
  intros H. destruct (float_kind rt v f H) as [Hp Hk].
  unfold Schema.datetime_or_date_to_timestamp, Schema.date_block, Schema.from_number.
  cbn [bind]. rewrite Hp. cbn [bind]. rewrite orb_true_r.
  destruct v; try contradiction; rewrite H; cbn [bind];
    now destruct (fromtimestamp rt f).
Qed.

(** On the reference host, the integer 86400 on a date field becomes the
    instant January 2 1970, 00:00:00. *)
Lemma date_field_number_becomes_instant_witness :
  Schema.float_ Utc.host (VInt 86400) = Return (float_of_Z 86400)
  /\ Schema.datetime_or_date_to_timestamp Utc.host Schema.Tdate (VInt 86400)
     = Return (VDatetime {| year := 1970; month := 1; day := 2; hour := 0; minute := 0;
                            second := 0; microsecond := 0; tzinfo := None |}).
Proof.
  split; [reflexivity|].
  exact (eq_trans (date_field_number_becomes_instant Utc.host (VInt 86400) _ eq_refl) eq_refl).
Defined.

(** X3: on a field typed [date], a text that is no number is parsed with
    [datetime.strptime(v, "%Y-%m-%d")] and answered by the timestamp of the
    parsed instant; the coercion fails with [ValueError] when the text does
    not have that format. *)
Theorem date_text_becomes_timestamp (rt : runtime) (s : string) :
  float_of_str rt s = None ->
  Schema.datetime_or_date_to_timestamp rt Schema.Tdate (VStr s)
  = match strptime rt s "%Y-%m-%d" with
    | Some d =>
        match timestamp rt d with
        | Some t => Return (VFloat t)
        | None => Raise ValueError
        end
    | None => Raise ValueError
    end.
Proof.
  intros H.
  unfold Schema.datetime_or_date_to_timestamp, Schema.date_block, Schema.probe, Schema.from_text.
  cbn [bind Schema.float_]. rewrite H. cbn.
  destruct (strptime rt s "%Y-%m-%d") as [d|]; [|reflexivity].
  now destruct (timestamp rt d).
Qed.

(** On the reference host, "2024-02-29" on a date field becomes
    1709164800.0, and "29/02/2024" is refused. *)
Lemma date_text_becomes_timestamp_witness :
  float_of_str Utc.host "2024-02-29" = None
  /\ Schema.datetime_or_date_to_timestamp Utc.host Schema.Tdate (VStr "2024-02-29")
     = Return (VFloat (float_of_Z 1709164800))
  /\ Schema.datetime_or_date_to_timestamp Utc.host Schema.Tdate (VStr "29/02/2024")
     = Raise ValueError.
Proof.
  split; [reflexivity|]. split.
  - exact (eq_trans (date_text_becomes_timestamp Utc.host "2024-02-29" eq_refl) eq_refl).
  - exact (eq_trans (date_text_becomes_timestamp Utc.host "29/02/2024" eq_refl) eq_refl).
Defined.

(** On the reference host, whose local zone is UTC, the raw value
    1700000000 on an instant field becomes the naive instant November 14
    2023, 22:13:20. *)
Theorem epoch_example_on_utc_host :
  Schema.datetime_or_date_to_timestamp Utc.host Schema.Tdatetime (VInt 1700000000)
  = Return (VDatetime {| year := 2023; month := 11; day := 14; hour := 22; minute := 13;
                         second := 20; microsecond := 0; tzinfo := None |}).
Proof. vm_compute. reflexivity. Qed.

(** The legacy factory differs from the standard one in the name of its
    size parameter only. *)
Theorem old_standard_is_standard (page limit : Z) (sort : list string) :
  Pageable.old_standard page limit sort = Pageable.standard page limit sort.
Proof. reflexivity. Qed.

Section BoundaryFacts.

Lemma query_int_bound (default bound : Z) (given : option Z) (v : Z) :
  (bound <= default)%Z ->
  Boundary.query_int default bound given = Return v -> (bound <= v)%Z.
Proof.
  intros Hd. unfold Boundary.query_int. destruct given as [x|].
  - destruct (Z.leb_spec bound x); [|discriminate]. now intros [= <-].
  - now intros [= <-].
Qed.

Lemma standard_stores (page size : Z) (sort : list string) (p : Pageable.t) :
  Pageable.standard page size sort = Return p ->
  Pageable.page p = page /\ Pageable.size p = size.
Proof.
  unfold Pageable.standard.
  destruct (Pageable.map_result Sort.from_str sort) as [sorts|e]; [|discriminate].
  cbn [bind]. rewrite init_stores. now intros [= <-].
Qed.

End BoundaryFacts.

(** ** Lists of sort tokens *)

Section MapResultFacts.

Context {A B : Type} (f : A -> result B).

Lemma map_result_Return (l : list A) (ys : list B) :
  Pageable.map_result f l = Return ys
  <-> Forall2 (fun x y => f x = Return y) l ys.
Proof.
  revert ys. induction l as [|x l IH]; intros ys; cbn [Pageable.map_result].
  - split.
    + intros [= <-]. constructor.
    + intros H. now inversion H.
  - destruct (f x) as [y|e] eqn:Hx; cbn [bind].
    + destruct (Pageable.map_result f l) as [zs|e] eqn:Hl; cbn [bind].
      * split.
        -- intros [= <-]. constructor; [assumption|now apply IH].
        -- intros H. inversion H as [|? y' ? zs' Hy Hzs]; subst.
           apply IH in Hzs. congruence.
      * split; [discriminate|]. intros H.
        inversion H as [|? y' ? zs' Hy Hzs]; subst.
        apply IH in Hzs. discriminate.
    + split; [discriminate|]. intros H.
      inversion H as [|? y' ? zs' Hy Hzs]; subst. congruence.
Qed.

Lemma map_result_Raise (l : list A) (e : exn) :
  Pageable.map_result f l = Raise e
  <-> exists pre x post ys,
        l = (pre ++ x :: post)%list
        /\ Forall2 (fun x y => f x = Return y) pre ys
        /\ f x = Raise e.
Proof.
  induction l as [|x l IH]; cbn [Pageable.map_result].
  - split; [discriminate|]. intros (pre & y & post & ys & H & _).
    now destruct pre.
  - destruct (f x) as [y|e'] eqn:Hx; cbn [bind].
    + destruct (Pageable.map_result f l) as [zs|e'] eqn:Hl; cbn [bind].
      * split; [discriminate|].
        intros (pre & x' & post & ys & H & Hpre & Hx').
        destruct pre as [|p pre]; cbn in H; injection H as -> ->; [congruence|].
        inversion Hpre; subst.
        assert (Return zs = Raise e :> result (list B)); [|discriminate].
        apply IH. now exists pre, x', post, l'.
      * split.
        -- intros [= ->]. destruct (proj1 IH eq_refl) as (pre & x' & post & ys & -> & Hpre & Hx').
           exists (x :: pre), x', post, (y :: ys). repeat split; auto.
        -- intros (pre & x' & post & ys & H & Hpre & Hx').
           destruct pre as [|p pre]; cbn in H; injection H as -> ->; [congruence|].
           inversion Hpre; subst. f_equal.
           assert (Raise e' = Raise e :> result (list B)); [|congruence].
           apply IH. now exists pre, x', post, l'.
    + split.
      * intros [= ->]. exists [], x, l, []. repeat split; auto.
      * intros (pre & x' & post & ys & H & Hpre & Hx').
        destruct pre as [|p pre]; cbn in H; injection H as -> ->; [congruence|].
        inversion Hpre; subst. congruence.
Qed.

End MapResultFacts.

Section CriterionFacts.

Lemma find_present (c : ascii) (a b : string) :
  exists i, find c (a ++ String c b) = Some i.
Proof.
  induction a as [|x a [i IH]]; simpl.
  - rewrite Ascii.eqb_refl. now exists 0.
  - destruct (Ascii.eqb x c); [now exists 0|]. rewrite IH. now exists (S i).
Qed.

Lemma from_str_well_formed (s : string) (c : Sort.t) :
  Sort.from_str s = Return c -> well_formed c.
Proof.
  intros H. apply from_str_inv in H as (ob & d & rest & -> & Hp & _).
  now exists ob, d.
Qed.

End CriterionFacts.

(** X1: [Pageable.standard] (and [old_standard], which is the same function
    with the size named [limit]) succeeds exactly when every token parses,
    and then holds the parsed criteria in the order of the tokens together
    with the page and the size it was given; it fails exactly with the error
    of the first token that does not parse. *)
Theorem standard_parses_every_token (page size : Z) (sort : list string) :
  (forall p, Pageable.standard page size sort = Return p <->
     Forall2 (fun t c => Sort.from_str t = Return c) sort (Pageable.sort p)
     /\ Pageable.size p = size /\ Pageable.page p = page)
  /\ (forall e, Pageable.standard page size sort = Raise e <->
        exists pre t post cs,
          sort = (pre ++ t :: post)%list
          /\ Forall2 (fun t c => Sort.from_str t = Return c) pre cs
          /\ Sort.from_str t = Raise e)
  /\ Pageable.old_standard page size sort = Pageable.standard page size sort.
Proof.
  split; [|split; [|reflexivity]].
  - intros p. unfold Pageable.standard.
    destruct (Pageable.map_result Sort.from_str sort) as [cs|e] eqn:H; cbn [bind].
    + rewrite init_stores. apply map_result_Return in H. split.
      * intros [= <-]. auto.
      * intros (H' & <- & <-). apply map_result_Return in H, H'.
        destruct p as [s z g]. cbn in *. congruence.
    + split; [discriminate|]. intros (H' & _). apply map_result_Return in H'.
      congruence.
  - intros e. rewrite <- map_result_Raise. unfold Pageable.standard.
    destruct (Pageable.map_result Sort.from_str sort) as [cs|e']; cbn [bind].
    + rewrite init_stores. split; discriminate.
    + split; intros [= ->]; reflexivity.
Qed.

(** X8: a token that the boundary pattern accepts holds both delimiters, so
    [Sort.from_str] never answers it with the [ValueError] of a missing
    delimiter: it parses, or it is refused with [ValidationError] for its
    direction. *)
Theorem accepted_token_has_delimiters (s : string) :
  Re.matches Sort.query_regex s = Some true ->
  Sort.from_str s <> Raise ValueError
  /\ ((exists c, Sort.from_str s = Return c) \/ Sort.from_str s = Raise ValidationError).
Proof.
  intros H. rewrite matches_query_regex in H.
  assert (Hs : exists w d tl, s = w ++ String "(" (Sort.value d ++ String ")" tl)).
  { assert (Hex : exists st, In st (Re.run sort_pattern (true, s))).
    { destruct (Re.run sort_pattern (true, s)) as [|st l]; [discriminate|].
      exists st. now left. }
    apply sort_pattern_accepts in Hex as (w & d & _ & _ & [->| ->]).
    - now exists w, d, "".
    - now exists w, d, (String Re.newline ""). }
  destruct Hs as (w & d & tl & ->).
  destruct (find_present "(" w (Sort.value d ++ String ")" tl)) as (i & Hi).
  assert (Hj : exists j, find ")" (w ++ String "(" (Sort.value d ++ String ")" tl)) = Some j).
  { change (w ++ String "(" (Sort.value d ++ String ")" tl))
      with (w ++ (String "(" (Sort.value d)) ++ String ")" tl).
    rewrite <- append_assoc. apply find_present. }
  destruct Hj as (j & Hj).
  unfold Sort.from_str, index. rewrite Hi, Hj. cbn [bind]. unfold Sort.init.
  destruct (Sort.Direction_of _) as [d'|].
  - split; [discriminate|]. left. eauto.
  - split; [discriminate|]. now right.
Qed.

(** The accepted token "a(b(asc)" is refused with [ValidationError]. *)
Lemma accepted_token_has_delimiters_witness :
  Re.matches Sort.query_regex "a(b(asc)" = Some true
  /\ Sort.from_str "a(b(asc)" <> Raise ValueError
  /\ ((exists c, Sort.from_str "a(b(asc)" = Return c)
      \/ Sort.from_str "a(b(asc)" = Raise ValidationError).
Proof.
  split; [reflexivity|].
  exact (accepted_token_has_delimiters "a(b(asc)" eq_refl).
Defined.

(** ** Outcomes of the validator on temporal fields *)

Section OutcomeFacts.

Import Schema.
Variable rt : runtime.

Lemma from_number_outcome (v : value) (f : float) :
  float_ rt v = Return f ->
  from_number rt v = Raise ValueError
  \/ exists d, fromtimestamp rt f = Some d /\ from_number rt v = Return (VDatetime d).
Proof.
  intros H. unfold from_number. rewrite H.
  destruct (fromtimestamp rt f) as [d|]; [right; eauto|now left].
Qed.

Lemma from_text_outcome (parse : string -> option datetime) (s : string) :
  from_text rt parse s = Raise ValueError
  \/ exists t, from_text rt parse s = Return (VFloat t).
Proof.
  unfold from_text. destruct (parse s) as [d|]; [|now left].
  destruct (timestamp rt d) as [t|]; [right; eauto|now left].
Qed.

(** What the validator answers on a temporal field, by the outcome of
    [float(v)]. *)
Lemma temporal_outcome (ty : field_type) (v : value) :
  ty <> Tother ->
  match float_ rt v with
  | Raise TypeError => datetime_or_date_to_timestamp rt ty v = Raise TypeError
  | Raise OverflowError => datetime_or_date_to_timestamp rt ty v = Raise OverflowError
  | Raise _ =>
      datetime_or_date_to_timestamp rt ty v = Raise ValueError
      \/ exists t, datetime_or_date_to_timestamp rt ty v = Return (VFloat t)
  | Return f =>
      datetime_or_date_to_timestamp rt ty v = Raise ValueError
      \/ exists d, fromtimestamp rt f = Some d
                   /\ datetime_or_date_to_timestamp rt ty v = Return (VDatetime d)
  end.
Proof.
  intros Hty.
  assert (Hblock : datetime_or_date_to_timestamp rt ty v
                   = r <- (match ty with Tdatetime => datetime_block rt v
                                       | _ => date_block rt v end) ;;
                     match r with Some x => Return x | None => Return v end).
  { destruct ty; try contradiction; unfold datetime_or_date_to_timestamp;
      [destruct (datetime_block rt v) as [[x|]|]|destruct (date_block rt v) as [[x|]|]];
      reflexivity. }
  rewrite Hblock. clear Hblock.
  destruct v as [|b|z|f|s|d|d|c].
  - destruct ty; try contradiction; reflexivity.
  - destruct (from_number_outcome (VBool b) _ eq_refl) as [H|(d & Hd & H)];
      destruct ty; try contradiction; unfold datetime_block, date_block, probe;
      cbn [float_ bind type_in_int_float orb]; rewrite H; cbn [bind]; eauto.
  - unfold datetime_block, date_block, probe, from_number. cbn [float_].
    destruct (float_of_Z z) as [sg|sg| |sg m e] eqn:Hz;
      destruct ty; try contradiction; cbn [bind is_ValueError type_in_int_float orb float_];
      rewrite ?Hz; try reflexivity;
      match goal with
      | |- context [fromtimestamp rt ?x] =>
          destruct (fromtimestamp rt x) as [d|]; cbn [bind]; eauto
      end.
  - destruct (from_number_outcome (VFloat f) _ eq_refl) as [H|(d & Hd & H)];
      destruct ty; try contradiction; unfold datetime_block, date_block, probe;
      cbn [float_ bind type_in_int_float orb]; rewrite H; cbn [bind]; eauto.
  - cbn [float_]. destruct (float_of_str rt s) as [f|] eqn:Hs.
    + assert (Hf : float_ rt (VStr s) = Return f) by (cbn [float_]; now rewrite Hs).
      destruct (from_number_outcome (VStr s) f Hf) as [H|(d & Hd & H)];
        destruct ty; try contradiction; unfold datetime_block, date_block, probe;
        rewrite Hf; cbn [bind type_in_int_float orb]; rewrite H; cbn [bind]; eauto.
    + destruct ty; try contradiction; unfold datetime_block, date_block, probe;
        cbn [float_]; rewrite Hs; cbn [bind is_ValueError type_in_int_float orb].
      * destruct (from_text_outcome (fromisoformat rt) s) as [H|(t & H)];
          rewrite H; cbn [bind]; eauto.
      * destruct (from_text_outcome (fun s => strptime rt s "%Y-%m-%d") s) as [H|(t & H)];
          rewrite H; cbn [bind]; eauto.
  - destruct ty; try contradiction; reflexivity.
  - destruct ty; try contradiction; reflexivity.
  - destruct ty; try contradiction; reflexivity.
Qed.

Lemma float_TypeError (v : value) : float_ rt v = Raise TypeError <-> not_a_number v.
Proof.
  destruct v as [|b|z|f|s|d|d|c]; cbn; try tauto; try (split; [discriminate|tauto]).
  - destruct (float_of_Z z); split; try discriminate; tauto.
  - destruct (float_of_str rt s); split; try discriminate; tauto.
Qed.

Lemma float_OverflowError (v : value) :
  float_ rt v = Raise OverflowError
  <-> exists z sg, v = VInt z /\ float_of_Z z = S754_infinity sg.
Proof.
  destruct v as [|b|z|f|s|d|d|c]; cbn;
    try (split; [discriminate|intros (z' & sg & [=] & _)]).
  - destruct (float_of_Z z) as [sg|sg| |sg m e] eqn:Hz; split;
      try discriminate; try (intros (z' & sg' & [= <-] & H); congruence).
    intros _. now exists z, sg.
  - destruct (float_of_str rt s); split; try discriminate; intros (z' & sg & [=] & _).
Qed.

End OutcomeFacts.

(** X10: on a field typed [datetime] or [date], for an input that is None,
    a bool, an int, a float, a str, a datetime, a date or an object without
    float conversion: the validator raises [TypeError] exactly when the
    input is None, a datetime, a date or such an object, [OverflowError]
    exactly when it is an int beyond the float range, and otherwise only
    [ValueError]. *)
Theorem validator_error_classes (rt : runtime) (ty : Schema.field_type) (v : value) :
  ty <> Schema.Tother ->
  (Schema.datetime_or_date_to_timestamp rt ty v = Raise TypeError <-> not_a_number v)
  /\ (Schema.datetime_or_date_to_timestamp rt ty v = Raise OverflowError
      <-> exists z sg, v = VInt z /\ float_of_Z z = S754_infinity sg)
  /\ (forall e, Schema.datetime_or_date_to_timestamp rt ty v = Raise e ->
        e = TypeError \/ e = OverflowError \/ e = ValueError).
Proof.
  intros Hty. pose proof (temporal_outcome rt ty v Hty) as H.
  rewrite <- float_TypeError with (rt := rt), <- float_OverflowError with (rt := rt).
  assert (Hcases : exists r,
             Schema.datetime_or_date_to_timestamp rt ty v = r
             /\ match Schema.float_ rt v with
                | Raise TypeError => r = Raise TypeError
                | Raise OverflowError => r = Raise OverflowError
                | _ => r = Raise ValueError \/ exists x, r = Return x
                end).
  { eexists. split; [reflexivity|].
    destruct (Schema.float_ rt v) as [f|[]]; auto;
      destruct H as [H|(x & H)]; auto; right; [destruct H as [_ H]|..]; eauto. }
  destruct Hcases as (r & -> & Hr).
  destruct (Schema.float_ rt v) as [f|[]];
    try (destruct Hr as [->|(x & ->)]); subst;
    repeat split; intros; try discriminate; try reflexivity;
    match goal with
    | E : Raise _ = Raise _ |- _ => injection E as <-; auto
    end.
Qed.

(** On the reference host: None on a datetime field raises [TypeError],
    and [10 ^ 400] raises [OverflowError]. *)
Lemma validator_error_classes_witness :
  Schema.Tdatetime <> Schema.Tother
  /\ Schema.datetime_or_date_to_timestamp Utc.host Schema.Tdatetime VNone = Raise TypeError
  /\ Schema.datetime_or_date_to_timestamp Utc.host Schema.Tdatetime (VInt (10 ^ 400))
     = Raise OverflowError.
Proof.
  assert (H : Schema.Tdatetime <> Schema.Tother) by discriminate.
  split; [exact H|]. split.
  - apply (proj1 (validator_error_classes Utc.host Schema.Tdatetime VNone H)). exact I.
  - apply (proj1 (proj2 (validator_error_classes Utc.host Schema.Tdatetime (VInt (10 ^ 400)) H))).
    exists (10 ^ 400)%Z, false. split; [reflexivity|vm_compute; reflexivity].
Defined.




(** ** Rendered criteria, the pattern and the parser *)

Section RenderedFacts.

Lemma substring_all (k : string) : substring 0 (length k) k = k.
Proof. induction k as [|c k IH]; simpl; [reflexivity|now rewrite IH]. Qed.

Lemma ending_append (a k : string) : ending (length k) (a ++ k) = k.
Proof.
  unfold ending. rewrite length_append.
  replace (length a + length k - length k) with (length a + 0) by lia.
  rewrite substring_skip. apply substring_all.
Qed.

(** Two texts with different endings of the same length differ. *)
Lemma endings_differ (a b k k' : string) :
  length k = length k' -> k <> k' -> a ++ k <> b ++ k'.
Proof.
  intros L Hk H. apply Hk.
  rewrite <- (ending_append a k), <- (ending_append b k'), L. now rewrite H.
Qed.

Lemma accepts_matches (s : string) :
  Boundary.accepts Sort.query_regex s = true <-> Re.matches Sort.query_regex s = Some true.
Proof.
  unfold Boundary.accepts. destruct (Re.matches Sort.query_regex s) as [[|]|];
    split; congruence.
Qed.

Lemma matches_iff (s : string) :
  Re.matches Sort.query_regex s = Some true
  <-> exists w d, w <> "" /\ find Re.newline w = None
        /\ (s = w ++ "(" ++ Sort.value d ++ ")"
            \/ s = w ++ "(" ++ Sort.value d ++ ")" ++ String Re.newline "").
Proof.
  rewrite matches_query_regex, <- sort_pattern_accepts.
  destruct (Re.run sort_pattern (true, s)) as [|st l].
  - split; [discriminate|]. now intros (st & []).
  - split; [|reflexivity]. intros _. exists st. now left.
Qed.

Lemma matches_false (s : string) :
  Re.matches Sort.query_regex s <> Some true -> Re.matches Sort.query_regex s = Some false.
Proof.
  rewrite matches_query_regex. now destruct (Re.run sort_pattern (true, s)).
Qed.

(** A text the pattern accepts ends in "c)", or in "c)" and a newline. *)
Lemma accepted_ending (s : string) :
  Re.matches Sort.query_regex s = Some true ->
  (exists t, s = t ++ "c)") \/ (exists t, s = t ++ "c)" ++ String Re.newline "").
Proof.
  intros H. apply matches_iff in H as (w & d & _ & _ & [->| ->]); [left|right];
    destruct d; cbn [Sort.value].
  - exists (w ++ "(as"). now rewrite !append_assoc.
  - exists (w ++ "(des"). now rewrite !append_assoc.
  - exists (w ++ "(as"). now rewrite !append_assoc.
  - exists (w ++ "(des"). now rewrite !append_assoc.
Qed.

(** A rendering that ends in "SC)" or in "ne)" is not accepted. *)
Lemma not_accepted (u k : string) :
  k = "SC)" \/ k = "ne)" -> Re.matches Sort.query_regex (u ++ k) <> Some true.
Proof.
  intros Hk H. apply accepted_ending in H as [(t & H)|(t & H)].
  - destruct Hk as [-> | ->].
    + change (u ++ "SC)") with (u ++ "S" ++ "C)") in H. rewrite <- append_assoc in H.
      revert H. now apply endings_differ.
    + change (u ++ "ne)") with (u ++ "n" ++ "e)") in H. rewrite <- append_assoc in H.
      revert H. now apply endings_differ.
  - revert H. destruct Hk as [-> | ->]; now apply endings_differ.
Qed.

(** Under the rendering by name no rendered criterion passes the pattern. *)
Lemma by_name_not_accepted (i : Interp.t) (c : Sort.t) :
  Interp.enum_format_of i = Interp.ByName ->
  Re.matches Sort.query_regex (Sort.to_str i c) <> Some true.
Proof.
  intros Hi. unfold Sort.to_str.
  generalize (Sort.format_str (Sort.order_by c)). intros fs.
  destruct (Sort.direction c) as [d|]; cbn [Sort.format_direction].
  - rewrite (format_member_by_name i d Hi). destruct d; cbn [Sort.name].
    + replace (fs ++ "(" ++ ("Direction." ++ "ASC") ++ ")")
        with ((fs ++ "(Direction.A") ++ "SC)") by now rewrite append_assoc.
      apply not_accepted. now left.
    + replace (fs ++ "(" ++ ("Direction." ++ "DESC") ++ ")")
        with ((fs ++ "(Direction.DE") ++ "SC)") by now rewrite append_assoc.
      apply not_accepted. now left.
  - replace (fs ++ "(" ++ "None" ++ ")") with ((fs ++ "(No") ++ "ne)")
      by now rewrite append_assoc.
    apply not_accepted. now right.
Qed.

Lemma by_name_no_roundtrip (i : Interp.t) (c : Sort.t) :
  Interp.enum_format_of i = Interp.ByName -> Sort.from_str (Sort.to_str i c) <> Return c.
Proof.
  intros Hi H. pose proof H as H'.
  apply from_str_inv in H' as (ob & d & rest & -> & Hp & Hs).
  unfold Sort.to_str in Hs.
  cbn [Sort.order_by Sort.direction Sort.format_str Sort.format_direction] in Hs.
  rewrite (format_member_by_name i d Hi) in Hs.
  apply append_inv_head in Hs. destruct d; discriminate.
Qed.

Lemma by_value_roundtrip (i : Interp.t) (c : Sort.t) :
  Interp.enum_format_of i = Interp.ByValue -> well_formed c ->
  Sort.from_str (Sort.to_str i c) = Return c.
Proof.
  intros Hi (ob & d & -> & Hp). rewrite (from_str_rendered i ob d Hp).
  rewrite (format_member_by_value i d Hi). unfold Sort.init.
  now rewrite Direction_of_value.
Qed.

Lemma roundtrip_cases (i : Interp.t) (c : Sort.t) :
  Sort.from_str (Sort.to_str i c) = Return c
  <-> Interp.enum_format_of i = Interp.ByValue /\ well_formed c.
Proof.
  split.
  - intros H. split; [|now apply from_str_well_formed in H].
    destruct (Interp.enum_format_of i) eqn:Hi; [reflexivity|].
    now apply by_name_no_roundtrip in H.
  - intros [Hi Hw]. now apply by_value_roundtrip.
Qed.

Lemma by_value_accepted (i : Interp.t) (c : Sort.t) :
  Interp.enum_format_of i = Interp.ByValue -> boundary_safe c ->
  Re.matches Sort.query_regex (Sort.to_str i c) = Some true.
Proof.
  intros Hi (ob & d & -> & Hne & Hp & Hn). apply matches_iff.
  exists ob, d. repeat split; auto. left. unfold Sort.to_str.
  cbn [Sort.order_by Sort.direction Sort.format_str Sort.format_direction].
  now rewrite (format_member_by_value i d Hi).
Qed.

Lemma boundary_safe_well_formed (c : Sort.t) : boundary_safe c -> well_formed c.
Proof. intros (ob & d & -> & _ & Hp & _). now exists ob, d. Qed.

End RenderedFacts.

(** X4: rendering a criterion and parsing the text gives the criterion back
    exactly when the interpreter's f-string renders the member by its value
    and the criterion has both fields set and a field name without
    parenthesis.  Under the rendering by class and member name no criterion
    survives the round trip. *)
Theorem roundtrip_iff_well_formed (i : Interp.t) (c : Sort.t) :
  Sort.from_str (Sort.to_str i c) = Return c
  <-> Interp.enum_format_of i = Interp.ByValue /\ well_formed c.
Proof. apply roundtrip_cases. Qed.

(** X5: what follows the first closing parenthesis of a text that parses is
    ignored: the text extended by anything parses to the same criterion.
    Where the f-string renders the member by its value, the text starts with
    the rendering of the parsed criterion, and the rendering parses back to
    it. *)
Theorem parse_then_render (i : Interp.t) (s : string) (c : Sort.t) :
  Sort.from_str s = Return c ->
  (forall more, Sort.from_str (s ++ more) = Return c)
  /\ (Interp.enum_format_of i = Interp.ByValue ->
      (exists rest, s = Sort.to_str i c ++ rest)
      /\ Sort.from_str (Sort.to_str i c) = Return c).
Proof.
  intros H. pose proof (from_str_well_formed s c H) as Hw.
  apply from_str_inv in H as (ob & d & rest & -> & Hp & ->).
  split.
  - intros more. rewrite ?append_assoc. cbn [append]. rewrite ?append_assoc.
    cbn [append].
    exact (from_str_token ob (rest ++ more) d Hp).
  - intros Hi. split; [|now apply by_value_roundtrip].
    exists rest. unfold Sort.to_str.
    cbn [Sort.order_by Sort.direction Sort.format_str Sort.format_direction].
    rewrite (format_member_by_value i d Hi).
    rewrite ?append_assoc. cbn [append]. rewrite ?append_assoc. reflexivity.
Qed.

(** The text "id(desc);drop" parses to the criterion id descending. *)
Lemma parse_then_render_witness :
  Sort.from_str "id(desc);drop" = Return id_desc
  /\ (forall more, Sort.from_str ("id(desc);drop" ++ more) = Return id_desc)
  /\ (Interp.enum_format_of Interp.cpython_3_10 = Interp.ByValue ->
      (exists rest, "id(desc);drop" = Sort.to_str Interp.cpython_3_10 id_desc ++ rest)
      /\ Sort.from_str (Sort.to_str Interp.cpython_3_10 id_desc) = Return id_desc).
Proof.
  split; [reflexivity|].
  exact (parse_then_render Interp.cpython_3_10 "id(desc);drop" id_desc eq_refl).
Defined.

(** X6: take a criterion with a non-empty field name free of parentheses
    and newlines.  Where the f-string renders the member by its value, its
    rendering is accepted by the boundary pattern and [Pageable.standard]
    parses it back to the criterion.  Where the f-string renders the class
    and member name, its rendering is refused by the pattern and
    [Pageable.standard] fails on it with [ValidationError]. *)
Theorem rendered_criterion_passes_boundary (i : Interp.t) (ob : string) (d : Sort.Direction) :
  ob <> "" -> no_paren ob -> find Re.newline ob = None ->
  (Interp.enum_format_of i = Interp.ByValue ->
   Re.matches Sort.query_regex
     (Sort.to_str i {| Sort.order_by := Some ob; Sort.direction := Some d |}) = Some true
   /\ Pageable.standard 1 100
        [Sort.to_str i {| Sort.order_by := Some ob; Sort.direction := Some d |}]
      = Return {| Pageable.sort := [{| Sort.order_by := Some ob; Sort.direction := Some d |}];
                  Pageable.size := 100; Pageable.page := 1 |})
  /\ (Interp.enum_format_of i = Interp.ByName ->
      Re.matches Sort.query_regex
        (Sort.to_str i {| Sort.order_by := Some ob; Sort.direction := Some d |}) = Some false
      /\ Pageable.standard 1 100
           [Sort.to_str i {| Sort.order_by := Some ob; Sort.direction := Some d |}]
         = Raise ValidationError).
Proof.
  intros Hne Hp Hn. split; intros Hi; split.
  - apply by_value_accepted; [assumption|]. exists ob, d. auto.
  - unfold Pageable.standard. cbn [Pageable.map_result].
    rewrite (by_value_roundtrip i _ Hi) by now exists ob, d. reflexivity.
  - apply matches_false. now apply by_name_not_accepted.
  - unfold Pageable.standard. cbn [Pageable.map_result].
    rewrite (from_str_rendered i ob d Hp), (format_member_by_name i d Hi).
    now destruct d.
Qed.

(** The criterion id descending on CPython 3.10 and on CPython 3.11. *)
Lemma rendered_criterion_passes_boundary_witness :
  (Re.matches Sort.query_regex (Sort.to_str Interp.cpython_3_10 id_desc) = Some true
   /\ Pageable.standard 1 100 [Sort.to_str Interp.cpython_3_10 id_desc]
      = Return {| Pageable.sort := [id_desc]; Pageable.size := 100; Pageable.page := 1 |})
  /\ (Re.matches Sort.query_regex (Sort.to_str Interp.cpython_3_11 id_desc) = Some false
      /\ Pageable.standard 1 100 [Sort.to_str Interp.cpython_3_11 id_desc]
         = Raise ValidationError).
Proof.
  assert (Hne : "id" <> "") by discriminate.
  assert (Hp : no_paren "id") by (split; reflexivity).
  split.
  - exact (proj1 (rendered_criterion_passes_boundary Interp.cpython_3_10 "id" Sort.DESC
                    Hne Hp eq_refl) eq_refl).
  - exact (proj2 (rendered_criterion_passes_boundary Interp.cpython_3_11 "id" Sort.DESC
                    Hne Hp eq_refl) eq_refl).
Defined.

(** X7: a descriptor that [Pageable.standard] builds for a request has a
    page and a size of at least 1, and a request with page 0 or size 0 is
    refused with [ValidationError] before the factory runs.  A request
    without parameters gets page 1, size 100 and the criterion id descending
    where the f-string of the default token renders the member by its value;
    where it renders the class and member name, the default token fails the
    pattern and the request is refused. *)
Theorem boundary_keeps_page_and_size_positive :
  (forall i page size sort p,
      Boundary.standard i page size sort = Return p ->
      (1 <= Pageable.page p)%Z /\ (1 <= Pageable.size p)%Z)
  /\ (forall i size sort, Boundary.standard i (Some 0%Z) size sort = Raise ValidationError)
  /\ (forall i sort, Boundary.standard i None (Some 0%Z) sort = Raise ValidationError)
  /\ (forall i, Interp.enum_format_of i = Interp.ByValue ->
        Boundary.standard i None None []
        = Return {| Pageable.sort := [id_desc]; Pageable.size := 100; Pageable.page := 1 |})
  /\ (forall i, Interp.enum_format_of i = Interp.ByName ->
        Boundary.standard i None None [] = Raise ValidationError).
Proof.
  split; [|split; [|split; [|split]]]; try reflexivity.
  - intros i page size sort p. unfold Boundary.standard.
    destruct (Boundary.query_int 1 1 page) as [pg|e] eqn:Hp; [|discriminate].
    destruct (Boundary.query_int 100 1 size) as [sz|e] eqn:Hs; [|discriminate].
    cbn [bind].
    destruct (Boundary.query_texts _ _ sort) as [l|e]; [|discriminate].
    cbn [bind]. intros H. apply standard_stores in H as [-> ->].
    split.
    + apply (query_int_bound 1 1 page); [lia|assumption].
    + apply (query_int_bound 100 1 size); [lia|assumption].
  - intros i Hi. unfold Boundary.standard.
    rewrite (format_member_by_value i _ Hi). reflexivity.
  - intros i Hi. unfold Boundary.standard, Boundary.query_texts.
    cbn [Boundary.query_int bind forallb].
    assert (H : Boundary.accepts Sort.query_regex ("id(" ++ Sort.format_member i Sort.DESC ++ ")")
                = false).
    { apply not_true_is_false. rewrite accepts_matches.
      exact (by_name_not_accepted i id_desc Hi). }
    rewrite H. reflexivity.
Qed.

Section TokenUniqueness.

Lemma append_same_length (a b x y : string) :
  a ++ x = b ++ y -> length a = length b -> a = b /\ x = y.
Proof.
  revert b. induction a as [|c a IH]; intros [|d b]; simpl; try discriminate.
  - auto.
  - intros [= -> H] [= L]. destruct (IH b H L) as [-> ->]. auto.
Qed.

(** A text that ends in a rendered direction in parentheses determines the
    direction and what precedes it. *)
Lemma member_token_unique (i : Interp.t) (ob ob' : string) (d d' : Sort.Direction) :
  ob ++ "(" ++ Sort.format_member i d ++ ")" = ob' ++ "(" ++ Sort.format_member i d' ++ ")" ->
  ob = ob' /\ d = d'.
Proof.
  intros H. pose proof (f_equal length H) as L. rewrite !length_append in L.
  unfold Sort.format_member in H, L.
  destruct (Interp.enum_format_of i), d, d'; cbn in L.
  all: try (assert (E : length ob = length ob') by lia;
            destruct (append_same_length _ _ _ _ H E) as [-> _]; auto; fail).
  all: exfalso.
  all: try (assert (E : length ob' <= length ob) by lia; symmetry in H;
            destruct (append_split ob' ob _ _ H E) as (m & -> & Hm);
            rewrite length_append in L;
            destruct m as [|x [|y m]]; cbn in L, Hm; try lia; discriminate).
  all: assert (E : length ob <= length ob') by lia;
    destruct (append_split ob ob' _ _ H E) as (m & -> & Hm);
    rewrite length_append in L;
    destruct m as [|x [|y m]]; cbn in L, Hm; try lia; discriminate.
Qed.

End TokenUniqueness.

Section FactoryFacts.

(** A text with a '(' and a later ')' parses or is refused for its
    direction. *)
Lemma delimited_parse (a b t : string) :
  (exists c, Sort.from_str (a ++ String "(" (b ++ String ")" t)) = Return c)
  \/ Sort.from_str (a ++ String "(" (b ++ String ")" t)) = Raise ValidationError.
Proof.
  destruct (find_present "(" a (b ++ String ")" t)) as (i & Hi).
  assert (Hj : exists j, find ")" (a ++ String "(" (b ++ String ")" t)) = Some j).
  { change (a ++ String "(" (b ++ String ")" t))
      with (a ++ (String "(" b) ++ String ")" t).
    rewrite <- append_assoc. apply find_present. }
  destruct Hj as (j & Hj).
  unfold Sort.from_str, index. rewrite Hi, Hj. cbn [bind]. unfold Sort.init.
  destruct (Sort.Direction_of _) as [d'|]; [left; eauto|now right].
Qed.

Lemma accepted_parse (s : string) :
  Re.matches Sort.query_regex s = Some true ->
  (exists c, Sort.from_str s = Return c) \/ Sort.from_str s = Raise ValidationError.
Proof.
  intros H. apply matches_iff in H as (w & d & _ & _ & [->| ->]);
    apply delimited_parse.
Qed.

(** Parsing a list whose tokens all parse or fail for their direction. *)
Lemma map_result_refusal (l : list string) (e : exn) :
  (forall t, In t l ->
     (exists c, Sort.from_str t = Return c) \/ Sort.from_str t = Raise ValidationError) ->
  Pageable.map_result Sort.from_str l = Raise e -> e = ValidationError.
Proof.
  intros Hl H. apply map_result_Raise in H as (pre & t & post & cs & -> & _ & Ht).
  destruct (Hl t) as [(c & Hc)|Hc]; [apply in_elt|congruence|congruence].
Qed.

Lemma query_int_refusal (default bound : Z) (given : option Z) (e : exn) :
  Boundary.query_int default bound given = Raise e -> e = ValidationError.
Proof.
  unfold Boundary.query_int. destruct given as [v|]; [|discriminate].
  destruct (bound <=? v)%Z; [discriminate|]. now intros [= <-].
Qed.

(** The list that passes the boundary holds accepted texts only. *)
Lemma query_texts_accepted (default received l : list string) :
  Boundary.query_texts default Sort.query_regex received = Return l ->
  l = match received with [] => default | _ => received end
  /\ forall t, In t l -> Re.matches Sort.query_regex t = Some true.
Proof.
  unfold Boundary.query_texts.
  destruct (forallb _ _) eqn:Hall; [|discriminate]. intros [= <-].
  split; [reflexivity|]. intros t Ht. rewrite forallb_forall in Hall.
  apply accepts_matches. now apply Hall.
Qed.

Lemma query_texts_refusal (default received : list string) (pattern : string) (e : exn) :
  Boundary.query_texts default pattern received = Raise e -> e = ValidationError.
Proof.
  unfold Boundary.query_texts. destruct (forallb _ _); [discriminate|].
  now intros [= <-].
Qed.

(** The default list passes the boundary and parses back to the criteria
    exactly when the member is rendered by value and every criterion is fit
    for the boundary. *)
Lemma default_list_cases (i : Interp.t) (c : Sort.t) (l : list Sort.t) :
  forallb (Boundary.accepts Sort.query_regex) (map (Sort.to_str i) (c :: l)) = true
  /\ Pageable.map_result Sort.from_str (map (Sort.to_str i) (c :: l)) = Return (c :: l)
  <-> Interp.enum_format_of i = Interp.ByValue /\ Forall boundary_safe (c :: l).
Proof.
  rewrite map_result_Return, forallb_forall. split.
  - intros [Hacc Hparse].
    assert (Hi : Interp.enum_format_of i = Interp.ByValue).
    { inversion Hparse as [|? ? ? ? Hc _]; subst. now apply roundtrip_cases in Hc. }
    split; [assumption|].
    assert (Hall : forall l', (forall t, In t (map (Sort.to_str i) l')
                                 -> Boundary.accepts Sort.query_regex t = true)
                     -> Forall2 (fun t c => Sort.from_str t = Return c)
                          (map (Sort.to_str i) l') l'
                     -> Forall boundary_safe l').
    { clear - Hi. induction l' as [|c l' IH]; cbn [map]; intros Ha Hp; constructor.
      - inversion Hp as [|? ? ? ? Hc _]; subst.
        apply roundtrip_cases in Hc as [_ (ob & d & -> & Hob)].
        specialize (Ha _ (or_introl eq_refl)). apply accepts_matches, matches_iff in Ha.
        destruct Ha as (w & d' & Hw & Hn & Hs).
        unfold Sort.to_str in Hs.
        cbn [Sort.order_by Sort.direction Sort.format_str Sort.format_direction] in Hs.
        rewrite (format_member_by_value i d Hi) in Hs.
        assert (E : ob = w).
        { destruct Hs as [Hs|Hs].
          - rewrite <- (format_member_by_value i d Hi),
              <- (format_member_by_value i d' Hi) in Hs.
            now apply member_token_unique in Hs.
          - exfalso. revert Hs.
            replace (ob ++ "(" ++ Sort.value d ++ ")") with ((ob ++ "(" ++ Sort.value d) ++ ")")
              by now rewrite !append_assoc.
            replace (w ++ "(" ++ Sort.value d' ++ ")" ++ String Re.newline "")
              with ((w ++ "(" ++ Sort.value d' ++ ")") ++ String Re.newline "")
              by now rewrite !append_assoc.
            now apply endings_differ. }
        subst w. exists ob, d. auto.
      - inversion Hp; subst. apply IH; [|assumption].
        intros t Ht. apply Ha. now right. }
    now apply Hall.
  - intros [Hi Hs]. split.
    + intros t Ht. apply in_map_iff in Ht as (c' & <- & Hc').
      rewrite Forall_forall in Hs. apply accepts_matches.
      apply by_value_accepted; auto.
    + clear - Hi Hs. induction Hs as [|c' l' Hc' _ IH]; cbn [map]; constructor; auto.
      apply by_value_roundtrip; [assumption|now apply boundary_safe_well_formed].
Qed.

End FactoryFacts.

(** X9: the factory built by [with_default_attribute(sorts)], asked without
    parameters, answers page 1, size 100 and exactly the criteria [sorts]
    if and only if [sorts] is empty, or the f-string renders the member by
    its value and every criterion has both fields set and a field name that
    is not empty and holds no parenthesis and no newline.  The default is
    rendered with [to_str], checked against the pattern and parsed back with
    [from_str] on every such request. *)
Theorem default_factory_roundtrip (i : Interp.t) (sorts : list Sort.t) :
  Factory.with_default_attribute i sorts None None []
  = Return {| Pageable.sort := sorts; Pageable.size := 100; Pageable.page := 1 |}
  <-> sorts = []
      \/ (Interp.enum_format_of i = Interp.ByValue /\ Forall boundary_safe sorts).
Proof.
  destruct sorts as [|c l].
  - split; [now left|reflexivity].
  - rewrite <- default_list_cases.
    unfold Factory.with_default_attribute, Boundary.query_texts.
    cbn [Boundary.query_int bind].
    destruct (forallb _ (map (Sort.to_str i) (c :: l))) eqn:Hall; cbn [bind].
    + destruct (Pageable.map_result Sort.from_str (map (Sort.to_str i) (c :: l)))
        as [cs|e]; cbn [bind].
      * rewrite init_stores. split.
        -- intros [= ->]. right. auto.
        -- intros [[=]|[_ [= ->]]]. reflexivity.
      * split; [discriminate|]. intros [[=]|[_ [=]]].
    + split; [discriminate|]. intros [[=]|[[=] _]].
Qed.

(** X13: a request to [Pageable.standard], or to a factory built by
    [with_default_attribute], fails with [ValidationError] and with no other
    exception: for a parameter out of its bound, for a token or a default
    that the pattern refuses, or for an accepted token whose direction does
    not parse. *)
Theorem request_refusals_are_ValidationError
  (i : Interp.t) (sorts : list Sort.t) (page size : option Z) (sort : list string) (e : exn) :
  Boundary.standard i page size sort = Raise e
  \/ Factory.with_default_attribute i sorts page size sort = Raise e ->
  e = ValidationError.
Proof.
  unfold Boundary.standard, Factory.with_default_attribute, Pageable.standard.
  destruct (Boundary.query_int 1 1 page) as [pg|e1] eqn:Hp; cbn [bind];
    [|intros [[= <-]|[= <-]]; eapply query_int_refusal; eassumption].
  destruct (Boundary.query_int 100 1 size) as [sz|e1] eqn:Hs; cbn [bind];
    [|intros [[= <-]|[= <-]]; eapply query_int_refusal; eassumption].
  intros [H|H];
    (destruct (Boundary.query_texts _ _ sort) as [l|e1] eqn:Hq; cbn [bind] in H;
      [|injection H as <-; eapply query_texts_refusal; eassumption]);
    (destruct (Pageable.map_result Sort.from_str l) as [cs|e1] eqn:Hm; cbn [bind] in H;
      [rewrite init_stores in H; discriminate|]); injection H as <-;
    apply (map_result_refusal l e1); [|assumption| |assumption];
    apply query_texts_accepted in Hq as [_ Hq];
    intros t Ht; apply accepted_parse; now apply Hq.
Qed.

(** A request with page 0 fails with [ValidationError]. *)
Lemma request_refusals_are_ValidationError_witness :
  Boundary.standard Interp.cpython_3_11 (Some 0%Z) None [] = Raise ValidationError
  /\ ValidationError = ValidationError.
Proof.
  split; [reflexivity|].
  exact (request_refusals_are_ValidationError Interp.cpython_3_11 [] (Some 0%Z) None []
           ValidationError (or_introl eq_refl)).
Defined.

(** X12: the rendering escapes nothing: a criterion whose field name holds
    ")&sort=" renders exactly like two criteria, so the query string does
    not determine the descriptor. *)
Theorem to_api_query_does_not_escape
  (i : Interp.t) (size page : Z) (ob1 ob2 : string) (d1 d2 : Sort.Direction)
  (rest : list Sort.t) :
  Pageable.to_api_query i
    {| Pageable.sort :=
         {| Sort.order_by := Some (ob1 ++ "(" ++ Sort.format_member i d1 ++ ")&sort=" ++ ob2);
            Sort.direction := Some d2 |} :: rest;
       Pageable.size := size; Pageable.page := page |}
  = Pageable.to_api_query i
      {| Pageable.sort :=
           {| Sort.order_by := Some ob1; Sort.direction := Some d1 |}
           :: {| Sort.order_by := Some ob2; Sort.direction := Some d2 |} :: rest;
         Pageable.size := size; Pageable.page := page |}.
Proof.
  rewrite !to_api_query_fields.
  destruct (Interp.format_int i size) as [s|e]; cbn [bind]; [|reflexivity].
  destruct (Interp.format_int i page) as [g|e]; cbn [bind]; [|reflexivity].
  do 2 f_equal. cbn [map fold_right].
  generalize (fold_right append "" (map (sort_segment i) rest)). intros tail.
  unfold sort_segment, Sort.to_str.
  cbn [Sort.order_by Sort.direction Sort.format_str Sort.format_direction].
  generalize (Sort.format_member i d1) (Sort.format_member i d2). intros f1 f2.
  rewrite ?append_assoc. cbn [append]. rewrite ?append_assoc. cbn [append].
  rewrite ?append_assoc. reflexivity.
Qed.

(** ** Reading a query string back *)

Section DecodeFacts.

Lemma digits_no_separator (d : Decimal.uint) :
  find "&" (NilEmpty.string_of_uint d) = None.
Proof. induction d; simpl; [reflexivity|now rewrite IHd ..]. Qed.

Lemma str_of_int_no_separator (z : Z) : find "&" (str_of_int z) = None.
Proof.
  unfold str_of_int.
  assert (H : forall d, find "&" (NilZero.string_of_uint d) = None).
  { intros d. destruct d; try reflexivity; apply digits_no_separator. }
  destruct z; simpl; [reflexivity|apply H|now rewrite H].
Qed.

Lemma str_of_int_inj (a b : Z) : str_of_int a = str_of_int b -> a = b.
Proof.
  unfold str_of_int. intros H.
  assert (Hn : forall z, Z.to_int z <> Decimal.Pos Decimal.Nil
                         /\ Z.to_int z <> Decimal.Neg Decimal.Nil).
  { intros [|p|p]; simpl; split; try discriminate;
      intros [= E]; now apply Unsigned.to_uint_nonnil in E. }
  apply (f_equal NilZero.int_of_string) in H.
  rewrite !NilZero.isi in H by apply Hn.
  injection H as H. apply (f_equal Z.of_int) in H.
  now rewrite !DecimalZ.of_to in H.
Qed.

(** Two texts cut at their first '&' agree before and after it. *)
Lemma cut_at_separator (x x' r r' : string) :
  find "&" x = None -> find "&" x' = None ->
  x ++ String "&" r = x' ++ String "&" r' -> x = x' /\ r = r'.
Proof.
  intros Hx Hx' H.
  assert (L : length x = length x').
  { apply (f_equal (find "&")) in H. rewrite !find_first in H by assumption.
    now injection H. }
  destruct (append_same_length _ _ _ _ H L) as [-> [= ->]]. auto.
Qed.

Lemma segment_cut (i : Interp.t) (ob : string) (d : Sort.Direction) (tail : string) :
  sort_segment i {| Sort.order_by := Some ob; Sort.direction := Some d |} ++ tail
  = ("sort=" ++ ob ++ "(" ++ Sort.format_member i d ++ ")") ++ String "&" tail.
Proof.
  unfold sort_segment, Sort.to_str.
  cbn [Sort.order_by Sort.direction Sort.format_str Sort.format_direction].
  generalize (Sort.format_member i d). intros f.
  rewrite ?append_assoc. cbn [append]. rewrite ?append_assoc. cbn [append].
  rewrite ?append_assoc. reflexivity.
Qed.

Lemma segment_no_separator (i : Interp.t) (ob : string) (d : Sort.Direction) :
  find "&" ob = None ->
  find "&" ("sort=" ++ ob ++ "(" ++ Sort.format_member i d ++ ")") = None.
Proof.
  intros H. cbn. rewrite (find_append_absent _ _ _ H).
  unfold Sort.format_member. now destruct (Interp.enum_format_of i), d.
Qed.

(** The rendered text determines the criteria and the two numbers. *)
Lemma rendering_injective (i : Interp.t) (l l' : list Sort.t) (a b a' b' : Z) :
  Forall plain l -> Forall plain l' ->
  fold_right append "" (map (sort_segment i) l)
    ++ "size=" ++ str_of_int a ++ "&page=" ++ str_of_int b
  = fold_right append "" (map (sort_segment i) l')
    ++ "size=" ++ str_of_int a' ++ "&page=" ++ str_of_int b' ->
  l = l' /\ a = a' /\ b = b'.
Proof.
  intros Hl. revert l'. induction Hl as [|c l (ob & d & -> & Hob) Hl IH];
    intros l' Hl' H; destruct Hl' as [|c' l' (ob' & d' & -> & Hob') Hl'].
  - cbn in H. injection H as H.
    change (str_of_int a ++ String "&" ("page=" ++ str_of_int b)
            = str_of_int a' ++ String "&" ("page=" ++ str_of_int b')) in H.
    apply cut_at_separator in H as [Ha Hb]; try apply str_of_int_no_separator.
    cbn in Hb. injection Hb as Hb.
    apply str_of_int_inj in Ha, Hb. auto.
  - exfalso. cbn in H. discriminate.
  - exfalso. cbn in H. discriminate.
  - cbn [map fold_right] in H. rewrite !append_assoc, !segment_cut in H.
    apply cut_at_separator in H as [Hc Ht]; try now apply segment_no_separator.
    cbn in Hc. injection Hc as Hc.
    apply member_token_unique in Hc as [-> ->].
    destruct (IH l' Hl' Ht) as (-> & -> & ->). auto.
Qed.

End DecodeFacts.

(** X14: among the descriptors whose criteria have both fields set and
    field names without '&', [to_api_query] is injective: two descriptors
    that render to the same query string are the same descriptor. *)
Theorem to_api_query_injective (i : Interp.t) (p p' : Pageable.t) (s : string) :
  Forall plain (Pageable.sort p) -> Forall plain (Pageable.sort p') ->
  Pageable.to_api_query i p = Return s -> Pageable.to_api_query i p' = Return s ->
  p = p'.
Proof.
  destruct p as [l a b], p' as [l' a' b']. cbn [Pageable.sort]. intros Hl Hl' H H'.
  rewrite to_api_query_fields in H, H'.
  destruct (Interp.format_int i a) as [ta|] eqn:Ea; [|discriminate].
  destruct (Interp.format_int i b) as [tb|] eqn:Eb; [|discriminate].
  destruct (Interp.format_int i a') as [ta'|] eqn:Ea'; [|discriminate].
  destruct (Interp.format_int i b') as [tb'|] eqn:Eb'; [|discriminate].
  cbn [bind] in H, H'. injection H as H. injection H' as H'.
  apply format_int_text in Ea, Eb, Ea', Eb'. subst ta tb ta' tb'.
  rewrite <- H' in H. apply rendering_injective in H as (-> & -> & ->); auto.
Qed.

(** Two descriptors sorted by id descending, size 10, page 2, rendered on
    CPython 3.11. *)
Lemma to_api_query_injective_witness :
  Forall plain [id_desc]
  /\ Pageable.to_api_query Interp.cpython_3_11
       {| Pageable.sort := [id_desc]; Pageable.size := 10; Pageable.page := 2 |}
     = Return "sort=id(Direction.DESC)&size=10&page=2"
  /\ {| Pageable.sort := [id_desc]; Pageable.size := 10; Pageable.page := 2 |}
     = {| Pageable.sort := [id_desc]; Pageable.size := 10; Pageable.page := 2 |}.
Proof.
  assert (H : Forall plain [id_desc]).
  { constructor; [|constructor]. exists "id", Sort.DESC. split; reflexivity. }
  assert (E : Pageable.to_api_query Interp.cpython_3_11
                {| Pageable.sort := [id_desc]; Pageable.size := 10; Pageable.page := 2 |}
              = Return "sort=id(Direction.DESC)&size=10&page=2") by (vm_compute; reflexivity).
  split; [exact H|]. split; [exact E|].
  exact (to_api_query_injective Interp.cpython_3_11
           {| Pageable.sort := [id_desc]; Pageable.size := 10; Pageable.page := 2 |}
           {| Pageable.sort := [id_desc]; Pageable.size := 10; Pageable.page := 2 |}
           "sort=id(Direction.DESC)&size=10&page=2" H H E E).
Defined.
